(** * consul_token: reconciliation of one Consul ACL token

    A shallow embedding of
    [plugins/modules/clustering/consul/consul_token.py] and the properties
    of its reconciliation algorithm.

    Conventions of the embedding.
    - JSON documents (request bodies, response bodies, the elements of the
      list-valued module parameters) are values of [json].  Numbers are
      integers; the token API carries no fractional numbers.
    - A Python [dict] is an association list in insertion order.  Documents
      have text keys ([JDict]); the dictionaries the module builds itself
      (the token index, the merged token view) are keyed by hashable
      documents ([pydict]) and looked up with Python's key equality.
    - Text is [string]; a character is one code point below 256.
    - Exceptions are values of [exn]; a computation that may raise returns
      [result].  Code that talks to the agent runs in the monad [M], which
      threads the list of requests issued so far.
    - A URL is kept as its base (scheme, host, port) and its path, not as
      formatted text. *)

From Stdlib Require Import List String Ascii ZArith Bool Lia.
Import ListNotations.
Local Open Scope string_scope.
Local Open Scope Z_scope.

(** ** Exceptions and fallible computations *)

Inductive exn : Type :=
| KeyError (key : string)
| TypeError (what : string)
| AttributeError (what : string)
| IndexError
| ValueError (msg : string)
| JSONDecodeError
| RequestError (status_code : Z) (content : string)
| ConnectionError (msg : string)
| TransportError (msg : string).

Inductive result (A : Type) : Type :=
| Ok (a : A)
| Raise (e : exn).
Arguments Ok {A} a.
Arguments Raise {A} e.

Definition rbind {A B} (r : result A) (k : A -> result B) : result B :=
  match r with
  | Ok a => k a
  | Raise e => Raise e
  end.

Declare Scope result_scope.
Delimit Scope result_scope with res.
Notation "x <- r ;; k" := (rbind r (fun x => k))
  (at level 61, r at next level, right associativity) : result_scope.

Fixpoint mapM {A B} (f : A -> result B) (l : list A) : result (list B) :=
  match l with
  | [] => Ok []
  | a :: l' =>
      (b <- f a ;;
       bs <- mapM f l' ;;
       Ok (b :: bs))%res
  end.

Fixpoint foldM {A B} (f : A -> B -> result A) (a : A) (l : list B)
  : result A :=
  match l with
  | [] => Ok a
  | b :: l' => (a' <- f a b ;; foldM f a' l')%res
  end.

(** ** JSON documents *)

Unset Elimination Schemes.
Inductive json : Type :=
| JNull
| JBool (b : bool)
| JInt (n : Z)
| JStr (s : string)
| JList (l : list json)
| JDict (d : list (string * json)).
Set Elimination Schemes.

Fixpoint assoc {V} (k : string) (d : list (string * V)) : option V :=
  match d with
  | [] => None
  | (k', v) :: d' => if String.eqb k k' then Some v else assoc k d'
  end.

(** Python's [==] on documents: [True == 1], lists compare element by
    element, dictionaries have the same number of keys and equal values
    under every key, whatever the insertion order. *)
Fixpoint py_eq (x y : json) {struct x} : bool :=
  match x, y with
  | JNull, JNull => true
  | JBool a, JBool b => Bool.eqb a b
  | JBool a, JInt n => Z.b2z a =? n
  | JInt n, JBool b => n =? Z.b2z b
  | JInt n, JInt m => n =? m
  | JStr s, JStr t => String.eqb s t
  | JList l, JList m =>
      (fix list_eq (l m : list json) {struct l} : bool :=
         match l, m with
         | [], [] => true
         | a :: l', b :: m' => py_eq a b && list_eq l' m'
         | _, _ => false
         end) l m
  | JDict d, JDict e =>
      (List.length d =? List.length e)%nat &&
      (fix sub (d : list (string * json)) {struct d} : bool :=
         match d with
         | [] => true
         | (k, v) :: d' =>
             match assoc k e with
             | Some w => py_eq v w && sub d'
             | None => false
             end
         end) d
  | _, _ => false
  end.

Definition py_ne (x y : json) : bool := negb (py_eq x y).

(** [hash(x)] raises for lists and dictionaries. *)
Definition hashable (x : json) : bool :=
  match x with
  | JList _ | JDict _ => false
  | _ => true
  end.

(** [x[key]] for a text [key]. *)
Definition subscript (x : json) (key : string) : result json :=
  match x with
  | JDict d =>
      match assoc key d with
      | Some v => Ok v
      | None => Raise (KeyError key)
      end
  | JList _ => Raise (TypeError "list indices must be integers or slices, not str")
  | JStr _ => Raise (TypeError "string indices must be integers")
  | _ => Raise (TypeError "object is not subscriptable")
  end.

(** [x.get(key, None)]. *)
Definition json_get (x : json) (key : string) : result json :=
  match x with
  | JDict d =>
      match assoc key d with
      | Some v => Ok v
      | None => Ok JNull
      end
  | _ => Raise (AttributeError "get")
  end.

(** [for e in x]: a list yields its elements, a dictionary its keys, a text
    its characters. *)
Fixpoint chars (s : string) : list json :=
  match s with
  | EmptyString => []
  | String c r => JStr (String c EmptyString) :: chars r
  end.

Definition py_iter (x : json) : result (list json) :=
  match x with
  | JList l => Ok l
  | JDict d => Ok (map (fun kv => JStr (fst kv)) d)
  | JStr s => Ok (chars s)
  | _ => Raise (TypeError "object is not iterable")
  end.

(** ** Dictionaries built by the module *)

Definition pydict : Type := list (json * json).

Fixpoint dict_get (d : pydict) (k : json) : option json :=
  match d with
  | [] => None
  | (k', v) :: d' => if py_eq k' k then Some v else dict_get d' k
  end.

Definition dict_contains (d : pydict) (k : json) : bool :=
  match dict_get d k with
  | Some _ => true
  | None => false
  end.

(** [d[k] = v]: an existing key keeps its place and its key object. *)
Fixpoint dict_set (d : pydict) (k v : json) : pydict :=
  match d with
  | [] => [(k, v)]
  | (k', v') :: d' =>
      if py_eq k' k then (k', v) :: d' else (k', v') :: dict_set d' k v
  end.

Definition dict_setitem (d : pydict) (k v : json) : result pydict :=
  if hashable k then Ok (dict_set d k v)
  else Raise (TypeError "unhashable type").

(** [d[key]] and [d.get(key, None)] for a text [key]. *)
Definition dict_getitem (d : pydict) (key : string) : result json :=
  match dict_get d (JStr key) with
  | Some v => Ok v
  | None => Raise (KeyError key)
  end.

Definition dict_get_default (d : pydict) (key : string) : json :=
  match dict_get d (JStr key) with
  | Some v => v
  | None => JNull
  end.

(** A document's own dictionary, as a [pydict] ([d.copy()]). *)
Definition dict_copy (d : list (string * json)) : pydict :=
  map (fun kv => (JStr (fst kv), snd kv)) d.

(** One element of the sequence form of [dict.update]: it must be an
    iterable of exactly two items, key then value. *)
Definition update_pair (e : json) : result (json * json) :=
  match py_iter e with
  | Raise _ =>
      Raise (TypeError "cannot convert dictionary update sequence element to a sequence")
  | Ok [k; v] => Ok (k, v)
  | Ok _ =>
      Raise (ValueError "dictionary update sequence element has wrong length; 2 is required")
  end.

(** [d.update(other)]: a dictionary is merged key by key; any other
    iterable is read as a sequence of key/value pairs. *)
Definition dict_update (d : pydict) (other : json) : result pydict :=
  match other with
  | JDict o => Ok (fold_left (fun acc kv => dict_set acc (JStr (fst kv)) (snd kv)) o d)
  | _ =>
      (items <- py_iter other ;;
       foldM (fun acc e =>
                kv <- update_pair e ;;
                dict_setitem acc (fst kv) (snd kv)) d items)%res
  end.

(** ** Text primitives: [str.split] and [int] *)

(** [s.split(sep)] for a one-character separator: every occurrence splits,
    so the result is never empty. *)
Fixpoint split (sep : ascii) (s : string) : list string :=
  match s with
  | EmptyString => [EmptyString]
  | String c r =>
      if Ascii.eqb c sep then EmptyString :: split sep r
      else
        match split sep r with
        | h :: t => String c h :: t
        | [] => [String c EmptyString]
        end
  end.

(** Whitespace as [int] sees it, among the code points below 256. *)
Definition is_space (c : ascii) : bool :=
  let n := nat_of_ascii c in
  ((9 <=? n) && (n <=? 13) || (n =? 32) || (n =? 133) || (n =? 160))%nat.

Definition digit_of (c : ascii) : option Z :=
  let n := nat_of_ascii c in
  if ((48 <=? n) && (n <=? 57))%nat then Some (Z.of_nat n - 48) else None.

Fixpoint lstrip (s : string) : string :=
  match s with
  | EmptyString => EmptyString
  | String c r => if is_space c then lstrip r else s
  end.

Fixpoint all_space (s : string) : bool :=
  match s with
  | EmptyString => true
  | String c r => is_space c && all_space r
  end.

(** The digits after the first one: a single underscore may separate two
    digits, and only whitespace may follow the last digit. *)
Fixpoint scan_digits (acc : Z) (s : string) : option Z :=
  match s with
  | EmptyString => Some acc
  | String c r =>
      match digit_of c with
      | Some d => scan_digits (10 * acc + d) r
      | None =>
          if Ascii.eqb c "_"%char then
            match r with
            | String c' r' =>
                match digit_of c' with
                | Some d => scan_digits (10 * acc + d) r'
                | None => None
                end
            | EmptyString => None
            end
          else if all_space s then Some acc else None
      end
  end.

Definition scan_number (s : string) : option Z :=
  match s with
  | String c r =>
      match digit_of c with
      | Some d => scan_digits d r
      | None => None
      end
  | EmptyString => None
  end.

(** [int(s)] in base ten: surrounding whitespace, one optional sign, then
    digits.  The interpreter's optional cap on the number of digits is
    taken as switched off. *)
Definition py_int (s : string) : result Z :=
  let body :=
    match lstrip s with
    | String "+"%char r => scan_number r
    | String "-"%char r => option_map Z.opp (scan_number r)
    | t => scan_number t
    end in
  match body with
  | Some n => Ok n
  | None => Raise (ValueError "invalid literal for int() with base 10")
  end.

(** ** ConsulVersion *)

Record ConsulVersion : Type := mkConsulVersion {
  major : string;
  minor : string;
  patch : string
}.

Definition ConsulVersion_init (version_string : string)
  : result ConsulVersion :=
  match split "."%char version_string with
  | a :: b :: c :: _ => Ok (mkConsulVersion a b c)
  | _ => Raise IndexError
  end.

Definition version_int (v : ConsulVersion) : result Z :=
  py_int (major v ++ minor v ++ patch v).

Definition version_ge (self other : ConsulVersion) : result bool :=
  (a <- version_int self ;;
   b <- version_int other ;;
   Ok (a >=? b))%res.

Definition version_le (self other : ConsulVersion) : result bool :=
  (a <- version_int self ;;
   b <- version_int other ;;
   Ok (a <=? b))%res.

(** ** Link and identity value types *)

Module RoleLink.
Record t : Type := mk { id : json; name : json }.

Definition init (dict : json) : result t :=
  (i <- json_get dict "id" ;;
   n <- json_get dict "name" ;;
   Ok (mk i n))%res.

Definition to_dict (self : t) : json :=
  JDict [("ID", id self); ("Name", name self)].
End RoleLink.

Module PolicyLink.
Record t : Type := mk { id : json; name : json }.

Definition init (dict : json) : result t :=
  (i <- json_get dict "id" ;;
   n <- json_get dict "name" ;;
   Ok (mk i n))%res.

Definition to_dict (self : t) : json :=
  JDict [("ID", id self); ("Name", name self)].
End PolicyLink.

Module ServiceIdentity.
Record t : Type := mk { name : json; datacenters : json }.

Definition error_message : string :=
  "Each element of service_identities must be a dict with the keys name and optionally datacenters".

Definition init (input : json) : result t :=
  match input with
  | JDict d =>
      match assoc "name" d with
      | Some n =>
          Ok (mk n (match assoc "datacenters" d with
                    | Some v => v
                    | None => JNull
                    end))
      | None => Raise (ValueError error_message)
      end
  | _ => Raise (ValueError error_message)
  end.

Definition to_dict (self : t) : json :=
  JDict [("ServiceName", name self); ("Datacenters", datacenters self)].
End ServiceIdentity.

Module NodeIdentity.
Record t : Type := mk { name : json; datacenter : json }.

Definition error_message : string :=
  "Each element of node_identities must be a dict with the keys name and optionally datacenter".

Definition init (input : json) : result t :=
  match input with
  | JDict d =>
      match assoc "name" d with
      | Some n =>
          Ok (mk n (match assoc "datacenter" d with
                    | Some v => v
                    | None => JNull
                    end))
      | None => Raise (ValueError error_message)
      end
  | _ => Raise (ValueError error_message)
  end.

Definition to_dict (self : t) : json :=
  JDict [("NodeName", name self); ("Datacenter", datacenter self)].
End NodeIdentity.

(** ** Module parameters and Configuration *)

(** [module.params], as the argument specification types it: the four
    list parameters are lists of documents. *)
Module Params.
Record t : Type := mk {
  mgmt_token : option string;
  host : string;
  port : Z;
  scheme : string;
  validate_certs : bool;
  id : string;
  description : string;
  roles : list json;
  policies : list json;
  service_identities : list json;
  node_identities : list json;
  local : bool;
  token : option string;
  state : string
}.
End Params.

Module Configuration.
Record t : Type := mk {
  management_token : option string;
  host : string;
  port : Z;
  scheme : string;
  validate_certs : bool;
  id : string;
  description : string;
  token : option string;
  roles : list RoleLink.t;
  policies : list PolicyLink.t;
  service_identities : list ServiceIdentity.t;
  node_identities : list NodeIdentity.t;
  local : bool;
  state : string;
  (** set by [main] once the agent has reported its version *)
  version : option ConsulVersion
}.

Definition init (p : Params.t) : result t :=
  (roles <- mapM RoleLink.init (Params.roles p) ;;
   policies <- mapM PolicyLink.init (Params.policies p) ;;
   service_identities <-
     mapM ServiceIdentity.init (Params.service_identities p) ;;
   node_identities <- mapM NodeIdentity.init (Params.node_identities p) ;;
   Ok (mk (Params.mgmt_token p) (Params.host p) (Params.port p)
          (Params.scheme p) (Params.validate_certs p) (Params.id p)
          (Params.description p) (Params.token p)
          roles policies service_identities node_identities
          (Params.local p) (Params.state p) None))%res.

Definition set_version (c : t) (v : ConsulVersion) : t :=
  mk (management_token c) (host c) (port c) (scheme c) (validate_certs c)
     (id c) (description c) (token c) (roles c) (policies c)
     (service_identities c) (node_identities c) (local c) (state c)
     (Some v).

Definition get_version (c : t) : result ConsulVersion :=
  match version c with
  | Some v => Ok v
  | None => Raise (AttributeError "version")
  end.
End Configuration.

Definition PRESENT_STATE_VALUE : string := "present".
Definition ABSENT_STATE_VALUE : string := "absent".

Definition REMOVE_OPERATION : string := "remove".
Definition UPDATE_OPERATION : string := "update".
Definition CREATE_OPERATION : string := "create".

Record Output : Type := mkOutput {
  changed : bool;
  operation : string;
  token : option json
}.

(** ** The HTTP transport *)

Inductive method : Type := GET | PUT | DELETE.

Inductive endpoint : Type :=
| agent_self                  (* /agent/self *)
| acl_tokens                  (* /acl/tokens *)
| acl_token                   (* /acl/token *)
| acl_token_id (id : json).   (* /acl/token/<id> *)

Record url : Type := mkUrl {
  url_scheme : string;
  url_host : string;
  url_port : Z;
  url_path : endpoint
}.

Record request : Type := mkRequest {
  req_method : method;
  req_url : url;
  req_headers : list (string * string);
  req_json : option json;
  req_verify : bool
}.

Record response : Type := mkResponse {
  status_code : Z;
  content : string;
  (** the body as [response.json()] decodes it, when it is JSON at all *)
  decoded : option json
}.

Definition response_json (r : response) : result json :=
  match decoded r with
  | Some j => Ok j
  | None => Raise JSONDecodeError
  end.

Inductive reply : Type :=
| Replied (r : response)
| Unreachable (msg : string)    (* requests.exceptions.ConnectionError *)
| Broken (msg : string).        (* any other transport exception *)

(** The agent and the network: what comes back for a request, given the
    requests issued before it. *)
Definition transport : Type := list request -> request -> reply.

(** Computations that talk to the agent: the requests issued so far go in,
    the result and the extended list come out. *)
Definition M (A : Type) : Type := list request -> result A * list request.

Definition ret {A} (a : A) : M A := fun tr => (Ok a, tr).

Definition lift {A} (r : result A) : M A := fun tr => (r, tr).

Definition bind {A B} (m : M A) (k : A -> M B) : M B :=
  fun tr =>
    match m tr with
    | (Ok a, tr') => k a tr'
    | (Raise e, tr') => (Raise e, tr')
    end.

Declare Scope M_scope.
Delimit Scope M_scope with M.
Notation "x <- m ;; k" := (bind m (fun x => k))
  (at level 61, m at next level, right associativity) : M_scope.

(** ** The module's operations *)

Definition get_consul_url (configuration : Configuration.t)
  (path : endpoint) : url :=
  mkUrl (Configuration.scheme configuration)
        (Configuration.host configuration)
        (Configuration.port configuration) path.

Definition get_auth_headers (configuration : Configuration.t)
  : list (string * string) :=
  match Configuration.management_token configuration with
  | None => []
  | Some t => [("X-Consul-Token", t)]
  end.

Definition handle_consul_response_error (response : response)
  : result unit :=
  if (400 <=? status_code response) && (status_code response <? 600)
  then Raise (RequestError (status_code response) (content response))
  else Ok tt.

(** The body of the update request. *)
Definition update_token_data (configuration : Configuration.t)
  : result json :=
  let data :=
    [("Description", JStr (Configuration.description configuration));
     ("Policies",
      JList (map PolicyLink.to_dict (Configuration.policies configuration)));
     ("Roles",
      JList (map RoleLink.to_dict (Configuration.roles configuration)));
     ("Local", JBool (Configuration.local configuration))] in
  (version <- Configuration.get_version configuration ;;
   v150 <- ConsulVersion_init "1.5.0" ;;
   ge150 <- version_ge version v150 ;;
   let data :=
     if ge150 : bool then
       (data ++ [("ServiceIdentities",
                  JList (map ServiceIdentity.to_dict
                           (Configuration.service_identities
                              configuration)))])%list
     else data in
   version <- Configuration.get_version configuration ;;
   v180 <- ConsulVersion_init "1.8.0" ;;
   ge180 <- version_ge version v180 ;;
   let data :=
     if ge180 : bool then
       (data ++ [("NodeIdentities",
                  JList (map NodeIdentity.to_dict
                           (Configuration.node_identities
                              configuration)))])%list
     else data in
   Ok (JDict data))%res.

(** The body of the create request. *)
Definition create_token_data (configuration : Configuration.t)
  : result json :=
  let data :=
    [("AccessorID", JStr (Configuration.id configuration));
     ("Description", JStr (Configuration.description configuration));
     ("SecretID",
      match Configuration.token configuration with
      | Some s => JStr s
      | None => JNull
      end);
     ("Policies",
      JList (map PolicyLink.to_dict (Configuration.policies configuration)));
     ("Roles",
      JList (map RoleLink.to_dict (Configuration.roles configuration)));
     ("Local", JBool (Configuration.local configuration))] in
  (version <- Configuration.get_version configuration ;;
   v150 <- ConsulVersion_init "1.5.0" ;;
   ge150 <- version_ge version v150 ;;
   let data :=
     if ge150 : bool then
       (data ++ [("ServiceIdentities",
                  JList (map ServiceIdentity.to_dict
                           (Configuration.service_identities
                              configuration)))])%list
     else data in
   version <- Configuration.get_version configuration ;;
   v180 <- ConsulVersion_init "1.8.0" ;;
   ge180 <- version_ge version v180 ;;
   let data :=
     if ge180 : bool then
       (data ++ [("NodeIdentities",
                  JList (map NodeIdentity.to_dict
                           (Configuration.node_identities
                              configuration)))])%list
     else data in
   Ok (JDict data))%res.

(** The [changed] expression of [update_token]: a chain of [or], evaluated
    left to right and stopping at the first operand that is true. *)
Definition token_changed (token : pydict) (resulting_token : json)
  : result bool :=
  (d1 <- dict_getitem token "Description" ;;
   d2 <- subscript resulting_token "Description" ;;
   if py_ne d1 d2 then Ok true else
   l1 <- dict_getitem token "Local" ;;
   l2 <- subscript resulting_token "Local" ;;
   if py_ne l1 l2 then Ok true else
   p2 <- json_get resulting_token "Policies" ;;
   if py_ne (dict_get_default token "Policies") p2 then Ok true else
   r2 <- json_get resulting_token "Roles" ;;
   if py_ne (dict_get_default token "Roles") r2 then Ok true else
   s2 <- json_get resulting_token "ServiceIdentities" ;;
   if py_ne (dict_get_default token "ServiceIdentities") s2 then Ok true else
   n2 <- json_get resulting_token "NodeIdentities" ;;
   Ok (py_ne (dict_get_default token "NodeIdentities") n2))%res.

(** The dictionary [get_tokens] builds from the listing: the entries whose
    ['AccessorID'] is not [None], keyed by it, a later entry replacing an
    earlier one under the same key. *)
Definition index_step (acc : pydict) (token : json) : result pydict :=
  (a <- subscript token "AccessorID" ;;
   match a with
   | JNull => Ok acc
   | _ => dict_setitem acc a token
   end)%res.

Definition index_tokens (tokens : json) : result pydict :=
  (items <- py_iter tokens ;; foldM index_step [] items)%res.

(** [index_token_object.copy()]; [set_token] only reaches it with a
    dictionary, the subscript before it having succeeded. *)
Definition copy (x : json) : result pydict :=
  match x with
  | JDict d => Ok (dict_copy d)
  | _ => Raise (AttributeError "copy")
  end.

Section Operations.

Variable net : transport.

Definition send (r : request) : M response :=
  fun tr =>
    (match net tr r with
     | Replied resp => Ok resp
     | Unreachable msg => Raise (ConnectionError msg)
     | Broken msg => Raise (TransportError msg)
     end, (tr ++ [r])%list).

Definition update_token (token : pydict) (configuration : Configuration.t)
  : M Output :=
  (accessor <- lift (dict_getitem token "AccessorID") ;;
   let url := get_consul_url configuration (acl_token_id accessor) in
   let headers := get_auth_headers configuration in
   data <- lift (update_token_data configuration) ;;
   response <- send (mkRequest PUT url headers (Some data)
                       (Configuration.validate_certs configuration)) ;;
   _ <- lift (handle_consul_response_error response) ;;
   resulting_token <- lift (response_json response) ;;
   changed <- lift (token_changed token resulting_token) ;;
   ret (mkOutput changed UPDATE_OPERATION (Some resulting_token)))%M.

Definition create_token (configuration : Configuration.t) : M Output :=
  (let url := get_consul_url configuration acl_token in
   let headers := get_auth_headers configuration in
   data <- lift (create_token_data configuration) ;;
   response <- send (mkRequest PUT url headers (Some data)
                       (Configuration.validate_certs configuration)) ;;
   _ <- lift (handle_consul_response_error response) ;;
   resulting_token <- lift (response_json response) ;;
   ret (mkOutput true CREATE_OPERATION (Some resulting_token)))%M.

Definition get_tokens (configuration : Configuration.t) : M pydict :=
  (let url := get_consul_url configuration acl_tokens in
   let headers := get_auth_headers configuration in
   response <- send (mkRequest GET url headers None
                       (Configuration.validate_certs configuration)) ;;
   _ <- lift (handle_consul_response_error response) ;;
   tokens <- lift (response_json response) ;;
   lift (index_tokens tokens))%M.

Definition remove_token (configuration : Configuration.t) : M Output :=
  (tokens <- get_tokens configuration ;;
   match dict_get tokens (JStr (Configuration.id configuration)) with
   | Some entry =>
       token_id <- lift (subscript entry "AccessorID") ;;
       let url := get_consul_url configuration (acl_token_id token_id) in
       let headers := get_auth_headers configuration in
       response <- send (mkRequest DELETE url headers None
                           (Configuration.validate_certs configuration)) ;;
       _ <- lift (handle_consul_response_error response) ;;
       ret (mkOutput true REMOVE_OPERATION None)
   | None => ret (mkOutput false REMOVE_OPERATION None)
   end)%M.

Definition get_token (id : json) (configuration : Configuration.t)
  : M json :=
  (let url := get_consul_url configuration (acl_token_id id) in
   let headers := get_auth_headers configuration in
   response <- send (mkRequest GET url headers None
                       (Configuration.validate_certs configuration)) ;;
   _ <- lift (handle_consul_response_error response) ;;
   lift (response_json response))%M.

Definition get_consul_version (configuration : Configuration.t)
  : M ConsulVersion :=
  (let url := get_consul_url configuration agent_self in
   let headers := get_auth_headers configuration in
   response <- send (mkRequest GET url headers None
                       (Configuration.validate_certs configuration)) ;;
   _ <- lift (handle_consul_response_error response) ;;
   body <- lift (response_json response) ;;
   config <- lift (subscript body "Config") ;;
   version_string <- lift (subscript config "Version") ;;
   match version_string with
   | JStr s => lift (ConsulVersion_init s)
   | _ => lift (Raise (AttributeError "split"))
   end)%M.

Definition set_token (configuration : Configuration.t) : M Output :=
  (tokens <- get_tokens configuration ;;
   match dict_get tokens (JStr (Configuration.id configuration)) with
   | Some index_token_object =>
       token_id <- lift (subscript index_token_object "AccessorID") ;;
       rest_token_object <- get_token token_id configuration ;;
       token <- lift (copy index_token_object) ;;
       token <- lift (dict_update token rest_token_object) ;;
       update_token token configuration
   | None => create_token configuration
   end)%M.

(** How an invocation ends: [module.exit_json], [module.fail_json], or an
    exception nobody catches. *)
Inductive failure : Type :=
| MissingDependency
| ConfigurationError (err : string)
| CouldNotConnect (host : string) (port : Z) (err : string).

Inductive exit : Type :=
| exit_json (changed : bool) (operation : string) (token : option json)
| fail_json (msg : failure)
| uncaught (e : exn).

(** The end of [main]: a connection error is reported through
    [fail_json], any other exception is not caught, an output is handed to
    [exit_json]. *)
Definition report (configuration : Configuration.t)
  (r : result Output * list request) : exit * list request :=
  match r with
  | (Ok output, tr') =>
      (exit_json (changed output) (operation output) (token output), tr')
  | (Raise (ConnectionError e), tr') =>
      (fail_json (CouldNotConnect (Configuration.host configuration)
                    (Configuration.port configuration) e), tr')
  | (Raise e, tr') => (uncaught e, tr')
  end.

Definition main (has_requests : bool) (params : Params.t)
  : list request -> exit * list request :=
  fun tr =>
    if negb has_requests then (fail_json MissingDependency, tr) else
    match Configuration.init params with
    | Raise (ValueError err) => (fail_json (ConfigurationError err), tr)
    | Raise e => (uncaught e, tr)
    | Ok configuration =>
        report configuration
          ((version <- get_consul_version configuration ;;
            let configuration :=
              Configuration.set_version configuration version in
            if String.eqb (Configuration.state configuration)
                 PRESENT_STATE_VALUE
            then set_token configuration
            else remove_token configuration)%M tr)
    end.

End Operations.

(** * Vocabulary of the statements *)

(** ** The requests the module sends *)

Definition version_request (configuration : Configuration.t) : request :=
  mkRequest GET (get_consul_url configuration agent_self)
    (get_auth_headers configuration) None
    (Configuration.validate_certs configuration).

Definition tokens_request (configuration : Configuration.t) : request :=
  mkRequest GET (get_consul_url configuration acl_tokens)
    (get_auth_headers configuration) None
    (Configuration.validate_certs configuration).

Definition token_request (id : json) (configuration : Configuration.t)
  : request :=
  mkRequest GET (get_consul_url configuration (acl_token_id id))
    (get_auth_headers configuration) None
    (Configuration.validate_certs configuration).

Definition delete_request (id : json) (configuration : Configuration.t)
  : request :=
  mkRequest DELETE (get_consul_url configuration (acl_token_id id))
    (get_auth_headers configuration) None
    (Configuration.validate_certs configuration).

Definition create_request (body : json) (configuration : Configuration.t)
  : request :=
  mkRequest PUT (get_consul_url configuration acl_token)
    (get_auth_headers configuration) (Some body)
    (Configuration.validate_certs configuration).

Definition update_request (id body : json)
  (configuration : Configuration.t) : request :=
  mkRequest PUT (get_consul_url configuration (acl_token_id id))
    (get_auth_headers configuration) (Some body)
    (Configuration.validate_certs configuration).

(** ** Replies *)

(** A response the module accepts: its status is outside [400, 600). *)
Definition accepted (resp : response) : Prop :=
  ~ (400 <= status_code resp < 600).

(** What one exchange yields: the reply, checked and decoded. *)
Definition exchange (rep : reply) : result json :=
  match rep with
  | Replied resp =>
      (_ <- handle_consul_response_error resp ;; response_json resp)%res
  | Unreachable msg => Raise (ConnectionError msg)
  | Broken msg => Raise (TransportError msg)
  end.

(** The version the agent reports, read from a decoded self-description. *)
Definition reported_version (body : json) : result ConsulVersion :=
  (config <- subscript body "Config" ;;
   version_string <- subscript config "Version" ;;
   match version_string with
   | JStr s => ConsulVersion_init s
   | _ => Raise (AttributeError "split")
   end)%res.

(** ** Listed records *)

Definition is_null (x : json) : bool :=
  match x with
  | JNull => true
  | _ => false
  end.

(** A listed record as the agent documents it: a dictionary that carries
    an ['AccessorID'] which can serve as a key. *)
Definition listed_ok (e : json) : bool :=
  match e with
  | JDict d =>
      match assoc "AccessorID" d with
      | Some a => hashable a
      | None => false
      end
  | _ => false
  end.

(** The record's ['AccessorID'] is there and is [None]. *)
Definition null_accessor (e : json) : bool :=
  match subscript e "AccessorID" with
  | Ok a => is_null a
  | Raise _ => false
  end.

(** The record's ['AccessorID'] is the text [s]. *)
Definition accessor_is (s : string) (e : json) : bool :=
  match subscript e "AccessorID" with
  | Ok a => py_eq a (JStr s)
  | Raise _ => false
  end.

(** The last listed record whose accessor identity is the text [s]. *)
Definition last_listed (s : string) (l : list json) : option json :=
  find (accessor_is s) (rev l).

(** What an index that was built holds: under each key a dictionary whose
    ['AccessorID'] is that key and is not [None], taken from the listing. *)
Definition index_entry_ok (items : list json) (kv : json * json) : Prop :=
  exists d a,
    snd kv = JDict d /\ assoc "AccessorID" d = Some a /\ a <> JNull /\
    py_eq (fst kv) a = true /\ In (snd kv) items.

(** ** Request bodies *)

Definition has_key (body : json) (key : string) : bool :=
  match body with
  | JDict d =>
      match assoc key d with
      | Some _ => true
      | None => false
      end
  | _ => false
  end.

(** [version >= ConsulVersion(s)] *)
Definition at_least (v : ConsulVersion) (s : string) : result bool :=
  (w <- ConsulVersion_init s ;; version_ge v w)%res.

Definition secret_of (token : option string) : json :=
  match token with
  | Some s => JStr s
  | None => JNull
  end.

Definition update_fields (cfg : Configuration.t) : list (string * json) :=
  [("Description", JStr (Configuration.description cfg));
   ("Policies", JList (map PolicyLink.to_dict (Configuration.policies cfg)));
   ("Roles", JList (map RoleLink.to_dict (Configuration.roles cfg)));
   ("Local", JBool (Configuration.local cfg))].

Definition create_fields (cfg : Configuration.t) : list (string * json) :=
  [("AccessorID", JStr (Configuration.id cfg));
   ("Description", JStr (Configuration.description cfg));
   ("SecretID", secret_of (Configuration.token cfg));
   ("Policies", JList (map PolicyLink.to_dict (Configuration.policies cfg)));
   ("Roles", JList (map RoleLink.to_dict (Configuration.roles cfg)));
   ("Local", JBool (Configuration.local cfg))].

(** The identity fields a version reading as [n] lets through. *)
Definition gated_fields (cfg : Configuration.t) (n : Z)
  : list (string * json) :=
  ((if n >=? 150
    then [("ServiceIdentities",
           JList (map ServiceIdentity.to_dict
                    (Configuration.service_identities cfg)))]
    else []) ++
   (if n >=? 180
    then [("NodeIdentities",
           JList (map NodeIdentity.to_dict
                    (Configuration.node_identities cfg)))]
    else []))%list.

(** The gates, read off a body: each identity field is a key of the body
    exactly when the version passes its threshold, and then holds the
    configured identities. *)
Definition gated (cfg : Configuration.t) (v : ConsulVersion) (body : json)
  : Prop :=
  (has_key body "ServiceIdentities" = true <-> at_least v "1.5.0" = Ok true)
  /\ (has_key body "NodeIdentities" = true <-> at_least v "1.8.0" = Ok true)
  /\ (has_key body "ServiceIdentities" = true ->
      subscript body "ServiceIdentities" =
        Ok (JList (map ServiceIdentity.to_dict
                     (Configuration.service_identities cfg))))
  /\ (has_key body "NodeIdentities" = true ->
      subscript body "NodeIdentities" =
        Ok (JList (map NodeIdentity.to_dict
                     (Configuration.node_identities cfg)))).

(** ** Desired-state elements *)

Definition field_or_null (x : json) (key : string) : json :=
  match x with
  | JDict d =>
      match assoc key d with
      | Some v => v
      | None => JNull
      end
  | _ => JNull
  end.

(** A policy or role link as the agent receives it: [{ID, Name}], a field
    the caller left out being [null]. *)
Definition link_wire (x : json) : json :=
  JDict [("ID", field_or_null x "id"); ("Name", field_or_null x "name")].

Definition is_dict (x : json) : bool :=
  match x with
  | JDict _ => true
  | _ => false
  end.

(** An identity the module accepts: a dictionary with a ['name'] key. *)
Definition names_identity (x : json) : bool :=
  match x with
  | JDict d =>
      match assoc "name" d with
      | Some _ => true
      | None => false
      end
  | _ => false
  end.

(** ** Change detection *)

Definition compared_fields : list string :=
  ["Description"; "Local"; "Policies"; "Roles"; "ServiceIdentities";
   "NodeIdentities"].

(** A field differs between the merged view and the response body, an
    absent key standing for [None] on either side. *)
Definition field_differs (token : pydict) (resulting_token : json)
  (f : string) : bool :=
  py_ne (dict_get_default token f) (field_or_null resulting_token f).

(** Two views and two bodies that hold the same under the six fields. *)
Definition same_compared_fields (token token' : pydict) (j j' : json)
  : Prop :=
  forall f, In f compared_fields ->
    dict_get_default token f = dict_get_default token' f /\
    field_or_null j f = field_or_null j' f.

(** ** The order a reader expects of versions *)

Fixpoint all_digits (s : string) : bool :=
  match s with
  | EmptyString => true
  | String c r =>
      match digit_of c with
      | Some _ => all_digits r
      | None => false
      end
  end.

(** The number a run of digits denotes, continuing from [acc]. *)
Fixpoint decimal (acc : Z) (s : string) : Z :=
  match s with
  | EmptyString => acc
  | String c r =>
      match digit_of c with
      | Some d => decimal (10 * acc + d) r
      | None => acc
      end
  end.

(** Component by component, each component read as a number. *)
Definition componentwise_ge (v w : ConsulVersion) : bool :=
  let a := decimal 0 (major v) in let a' := decimal 0 (major w) in
  let b := decimal 0 (minor v) in let b' := decimal 0 (minor w) in
  let c := decimal 0 (patch v) in let c' := decimal 0 (patch w) in
  (a' <? a) || (a =? a') && ((b' <? b) || (b =? b') && (c' <=? c)).

(** ** Sample inputs *)

(** A transport that answers from a script: the n-th request gets the
    n-th reply, whatever it asks. *)
Definition scripted (replies : list reply) : transport :=
  fun tr _ => nth (List.length tr) replies (Broken "no reply scripted").

Definition ok_json (j : json) : reply := Replied (mkResponse 200 "" (Some j)).

Definition sample_params (state : string) : Params.t :=
  Params.mk (Some "management") "localhost" 8500 "http" true "ID-1" ""
    [] [JDict [("name", JStr "p1")]] [] [] false None state.

(** The configuration built from [sample_params], before the version is
    known. *)
Definition sample_configuration0 (state : string) : Configuration.t :=
  Configuration.mk (Some "management") "localhost" 8500 "http" true "ID-1"
    "" None [] [PolicyLink.mk JNull (JStr "p1")] [] [] false state None.

(** A configuration with identities, for an agent of the given version. *)
Definition sample_configuration (version : string) : Configuration.t :=
  Configuration.mk (Some "management") "localhost" 8500 "http" true "ID-1"
    "" None [] [PolicyLink.mk JNull (JStr "p1")]
    [ServiceIdentity.mk (JStr "web") (JList [JStr "dc1"])]
    [NodeIdentity.mk (JStr "node-1") (JStr "dc2")]
    false PRESENT_STATE_VALUE
    (match ConsulVersion_init version with
     | Ok v => Some v
     | Raise _ => None
     end).

Definition sample_self (version : string) : json :=
  JDict [("Config", JDict [("Version", JStr version)])].

Definition sample_record (accessor : json) (description : string) : json :=
  JDict [("AccessorID", accessor); ("Description", JStr description);
         ("Local", JBool false)].

Definition sample_token : pydict :=
  [(JStr "AccessorID", JStr "ID-1"); (JStr "Description", JStr "");
   (JStr "Local", JBool false);
   (JStr "Policies", JList [JDict [("ID", JStr "7"); ("Name", JStr "p0")]]);
   (JStr "Hash", JStr "before")].

Definition sample_updated : json :=
  JDict [("AccessorID", JStr "ID-1"); ("Description", JStr "");
         ("Local", JBool false);
         ("Policies", JList [JDict [("ID", JStr "8"); ("Name", JStr "p1")]]);
         ("Hash", JStr "after")].

(** ** The requests of one invocation *)

Definition is_get (r : request) : bool :=
  match req_method r with
  | GET => true
  | _ => false
  end.

(** The request goes to the agent the parameters name, with their
    certificate setting, and carries the management token, if there is
    one, as its only header. *)
Definition addressed (p : Params.t) (r : request) : Prop :=
  url_scheme (req_url r) = Params.scheme p /\
  url_host (req_url r) = Params.host p /\
  url_port (req_url r) = Params.port p /\
  req_verify r = Params.validate_certs p /\
  req_headers r =
    match Params.mgmt_token p with
    | Some t => [("X-Consul-Token", t)]
    | None => []
    end.

(** The sequences of requests one invocation can issue, once its
    configuration [cfg0] is built: the version request, the listing, then
    a DELETE, or the creating PUT, or the single-token fetch and the
    updating PUT; an invocation that fails on the way stops earlier. *)
Definition request_shapes (p : Params.t) (cfg0 : Configuration.t)
  (new : list request) : Prop :=
  let V := version_request cfg0 in
  let T := tokens_request cfg0 in
  let id := JStr (Params.id p) in
  let present := String.eqb (Params.state p) PRESENT_STATE_VALUE in
  new = [V] \/
  new = [V; T] \/
  (present = false /\ new = [V; T; delete_request id cfg0]) \/
  (present = true /\ exists body, new = [V; T; create_request body cfg0]) \/
  (present = true /\ new = [V; T; token_request id cfg0]) \/
  (present = true /\
   exists accessor body,
     new = [V; T; token_request id cfg0;
            update_request accessor body cfg0]).

(** ** Errors that come from a reply *)

Definition from_reply (e : exn) : bool :=
  match e with
  | RequestError _ _ | ConnectionError _ | TransportError _ => true
  | _ => false
  end.

(** The exception a reply stands for, if any. *)
Definition reply_error (rep : reply) : option exn :=
  match rep with
  | Replied resp =>
      match handle_consul_response_error resp with
      | Raise e => Some e
      | Ok _ => None
      end
  | Unreachable msg => Some (ConnectionError msg)
  | Broken msg => Some (TransportError msg)
  end.

(** How [main] ends on an exception raised while it talks to the agent. *)
Definition reported (p : Params.t) (e : exn) : exit :=
  match e with
  | ConnectionError msg =>
      fail_json (CouldNotConnect (Params.host p) (Params.port p) msg)
  | _ => uncaught e
  end.

(** [rep] answered the last request of [tr'], and that request was issued
    after [tr]. *)
Definition last_reply (net : transport) (tr tr' : list request)
  (rep : reply) : Prop :=
  exists tr0 q,
    tr' = (tr0 ++ [q])%list /\ (List.length tr <= List.length tr0)%nat /\
    net tr0 q = rep.

(** A computation without requests that raises none of the reply errors. *)
Definition quiet {A} (r : result A) : Prop :=
  forall e, r = Raise e -> from_reply e = false.

(** A computation only adds requests, and ends in a reply error exactly
    when the reply to the last request it issued stands for that error. *)
Definition faithful (net : transport) {A} (m : M A) : Prop :=
  forall tr r tr',
    m tr = (r, tr') ->
    (exists new, tr' = (tr ++ new)%list) /\
    forall e, from_reply e = true ->
      (r = Raise e <->
       exists rep, last_reply net tr tr' rep /\ reply_error rep = Some e).

(** ** Version texts *)

Fixpoint count_char (c : ascii) (s : string) : nat :=
  match s with
  | EmptyString => O
  | String c' r => if Ascii.eqb c' c then S (count_char c r) else count_char c r
  end.

(** ** Identities on the wire *)

Definition service_wire (x : json) : json :=
  JDict [("ServiceName", field_or_null x "name");
         ("Datacenters", field_or_null x "datacenters")].

Definition node_wire (x : json) : json :=
  JDict [("NodeName", field_or_null x "name");
         ("Datacenter", field_or_null x "datacenter")].

(** ** Well-formed documents *)

Fixpoint distinct (l : list string) : bool :=
  match l with
  | [] => true
  | k :: r => negb (existsb (String.eqb k) r) && distinct r
  end.

(** A document as a decoder yields it: the keys of every dictionary in it
    are distinct. *)
Fixpoint wf_json (x : json) : bool :=
  match x with
  | JList l => forallb wf_json l
  | JDict d =>
      distinct (map fst d) && forallb (fun kv => wf_json (snd kv)) d
  | _ => true
  end.

(** Induction on documents, the parts of a list or dictionary included. *)
Fixpoint json_induction (P : json -> Prop)
  (Hnull : P JNull) (Hbool : forall b, P (JBool b))
  (Hint : forall n, P (JInt n)) (Hstr : forall s, P (JStr s))
  (Hlist : forall l, Forall P l -> P (JList l))
  (Hdict : forall d, Forall (fun kv => P (snd kv)) d -> P (JDict d))
  (x : json) {struct x} : P x :=
  match x with
  | JNull => Hnull
  | JBool b => Hbool b
  | JInt n => Hint n
  | JStr s => Hstr s
  | JList l =>
      Hlist l
        ((fix parts (l : list json) : Forall P l :=
            match l with
            | [] => Forall_nil P
            | a :: r =>
                Forall_cons a
                  (json_induction P Hnull Hbool Hint Hstr Hlist Hdict a)
                  (parts r)
            end) l)
  | JDict d =>
      Hdict d
        ((fix parts (d : list (string * json))
            : Forall (fun kv => P (snd kv)) d :=
            match d with
            | [] => Forall_nil _
            | kv :: r =>
                Forall_cons kv
                  (json_induction P Hnull Hbool Hint Hstr Hlist Hdict
                     (snd kv))
                  (parts r)
            end) d)
  end.

(** * Properties *)

(** ** Text primitives on samples *)

Example version_1_10_0_vs_1_9_0 :
  (v <- ConsulVersion_init "1.10.0" ;; w <- ConsulVersion_init "1.9.0" ;;
   version_ge v w)%res = Ok true.
Proof. reflexivity. Qed.

Example py_int_samples :
  py_int " +1_5_0 " = Ok 150 /\ py_int "-007" = Ok (-7) /\
  py_int "180+ent" = Raise (ValueError "invalid literal for int() with base 10") /\
  py_int "1__0" = Raise (ValueError "invalid literal for int() with base 10") /\
  py_int "" = Raise (ValueError "invalid literal for int() with base 10").
Proof. repeat split; reflexivity. Qed.

Example split_samples :
  split "."%char "1.5.0" = ["1"; "5"; "0"] /\
  split "."%char "1..2." = ["1"; ""; "2"; ""] /\
  split "."%char "" = [""].
Proof. repeat split; reflexivity. Qed.

(** ** Results and the request monad *)

Lemma rbind_Ok {A B} (r : result A) (k : A -> result B) (b : B) :
  rbind r k = Ok b -> exists a, r = Ok a /\ k a = Ok b.
Proof. destruct r as [a|e]; simpl; [eauto | discriminate]. Qed.

Lemma bind_eq {A B} (m : M A) (k : A -> M B) tr a tr1 :
  m tr = (Ok a, tr1) -> bind m k tr = k a tr1.
Proof. unfold bind. now intros ->. Qed.

(** ** Python equality on texts *)

Lemma py_eq_str_l s x : py_eq (JStr s) x = true -> x = JStr s.
Proof.
  destruct x; simpl; try discriminate.
  intros H. apply String.eqb_eq in H. now subst.
Qed.

Lemma py_eq_str_r s x : py_eq x (JStr s) = true -> x = JStr s.
Proof.
  destruct x; simpl; try discriminate.
  intros H. apply String.eqb_eq in H. now subst.
Qed.

Lemma py_eq_refl_hashable x : hashable x = true -> py_eq x x = true.
Proof.
  destruct x; simpl; try discriminate; intros _.
  - reflexivity.
  - apply Bool.eqb_reflx.
  - apply Z.eqb_refl.
  - apply String.eqb_refl.
Qed.

(** ** The version model *)

Lemma digit_not_space c d : digit_of c = Some d -> is_space c = false.
Proof.
  destruct c as [[] [] [] [] [] [] [] []]; vm_compute; congruence.
Qed.

Lemma digit_not_sign c d :
  digit_of c = Some d -> c <> "+"%char /\ c <> "-"%char /\ c <> "_"%char.
Proof.
  destruct c as [[] [] [] [] [] [] [] []]; vm_compute;
    intros H; try discriminate H; repeat split; discriminate.
Qed.

Lemma scan_digits_decimal s : forall acc,
  all_digits s = true -> scan_digits acc s = Some (decimal acc s).
Proof.
  induction s as [|c r IH]; intros acc H; simpl in *.
  - reflexivity.
  - destruct (digit_of c) as [d|]; [now apply IH | discriminate].
Qed.

(** [int] reads a non-empty run of digits as the number it denotes. *)
Lemma py_int_decimal s :
  s <> EmptyString -> all_digits s = true -> py_int s = Ok (decimal 0 s).
Proof.
  destruct s as [|c r]; [congruence | intros _ H].
  simpl in H. destruct (digit_of c) as [d|] eqn:Hd; [|discriminate].
  destruct (digit_not_sign _ _ Hd) as (Hp & Hm & _).
  unfold py_int. simpl lstrip. rewrite (digit_not_space _ _ Hd).
  assert (Hbody : match String c r with
                  | String "+"%char r0 => scan_number r0
                  | String "-"%char r0 => option_map Z.opp (scan_number r0)
                  | t => scan_number t
                  end = scan_number (String c r)).
  { destruct c as [[] [] [] [] [] [] [] []]; try reflexivity; congruence. }
  rewrite Hbody. unfold scan_number. rewrite Hd.
  rewrite (scan_digits_decimal r d H).
  cbn [decimal]. now rewrite Hd.
Qed.

(** The comparison returns on every pair of versions with numeric
    components. *)
Lemma version_ge_total v w :
  major v <> EmptyString -> major w <> EmptyString ->
  all_digits (major v ++ minor v ++ patch v) = true ->
  all_digits (major w ++ minor w ++ patch w) = true ->
  version_ge v w =
    Ok (decimal 0 (major v ++ minor v ++ patch v)
        >=? decimal 0 (major w ++ minor w ++ patch w)).
Proof.
  intros Hv Hw Dv Dw. unfold version_ge, version_int.
  rewrite !py_int_decimal; trivial.
  - destruct (major w); [congruence | discriminate].
  - destruct (major v); [congruence | discriminate].
Qed.

(** The concatenation order is not the component-wise order. *)
Lemma version_ge_not_componentwise :
  exists v w,
    ConsulVersion_init "1.10.0" = Ok v /\ ConsulVersion_init "2.0.0" = Ok w /\
    version_ge v w = Ok true /\ componentwise_ge v w = false.
Proof. do 2 eexists. repeat split. Qed.

(** C6. For two parsed versions, [>=] and [<=] hold exactly when the
    integer read from the separator-free concatenation major+minor+patch of
    the first operand is [>=], respectively [<=], the integer read the same
    way from the second operand. *)
Theorem version_order_is_concatenation_order
  (v w : ConsulVersion) (n m : Z) :
  py_int (major v ++ minor v ++ patch v) = Ok n ->
  py_int (major w ++ minor w ++ patch w) = Ok m ->
  version_ge v w = Ok (n >=? m) /\
  version_le v w = Ok (n <=? m) /\
  (version_ge v w = Ok true <-> n >= m) /\
  (version_le v w = Ok true <-> n <= m).
Proof.
  intros Hn Hm. unfold version_ge, version_le, version_int.
  rewrite Hn, Hm. simpl. repeat split; try intros H.
  - injection H as H. apply Z.geb_le in H. lia.
  - f_equal. apply Z.geb_le. lia.
  - injection H as H. now apply Z.leb_le in H.
  - f_equal. now apply Z.leb_le.
Qed.

(** Version("1.10.0") >= Version("1.9.0") compares 1100 against 190. *)
Lemma version_order_1_10_0_vs_1_9_0 :
  ConsulVersion_init "1.10.0" = Ok (mkConsulVersion "1" "10" "0") /\
  ConsulVersion_init "1.9.0" = Ok (mkConsulVersion "1" "9" "0") /\
  version_ge (mkConsulVersion "1" "10" "0") (mkConsulVersion "1" "9" "0")
    = Ok (1100 >=? 190) /\
  version_le (mkConsulVersion "1" "10" "0") (mkConsulVersion "1" "9" "0")
    = Ok (1100 <=? 190).
Proof.
  split; [reflexivity | split; [reflexivity|]].
  destruct (version_order_is_concatenation_order
              (mkConsulVersion "1" "10" "0") (mkConsulVersion "1" "9" "0")
              1100 190 eq_refl eq_refl) as (Hge & Hle & _).
  exact (conj Hge Hle).
Defined.

(** ** The token index *)

Lemma find_app_or {A} (p : A -> bool) (l1 l2 : list A) :
  find p (l1 ++ l2)%list =
    match find p l1 with
    | Some a => Some a
    | None => find p l2
    end.
Proof.
  induction l1 as [|a l1 IH]; simpl; [reflexivity|].
  destruct (p a); [reflexivity | exact IH].
Qed.

Lemma last_listed_cons s e l :
  last_listed s (e :: l) =
    match last_listed s l with
    | Some x => Some x
    | None => if accessor_is s e then Some e else None
    end.
Proof. unfold last_listed. simpl. now rewrite find_app_or. Qed.

Lemma dict_get_set_text d a e s :
  dict_get (dict_set d a e) (JStr s) =
    if py_eq a (JStr s) then Some e else dict_get d (JStr s).
Proof.
  induction d as [|[k' v'] d IH]; simpl.
  - reflexivity.
  - destruct (py_eq k' a) eqn:Hka; simpl.
    + destruct (py_eq k' (JStr s)) eqn:Hks.
      * apply py_eq_str_r in Hks. subst k'.
        apply py_eq_str_l in Hka. subst a.
        simpl. now rewrite String.eqb_refl.
      * destruct (py_eq a (JStr s)) eqn:Has; [|reflexivity].
        apply py_eq_str_r in Has. subst a.
        apply py_eq_str_r in Hka. subst k'.
        simpl in Hks. now rewrite String.eqb_refl in Hks.
    + destruct (py_eq k' (JStr s)) eqn:Hks; [|exact IH].
      destruct (py_eq a (JStr s)) eqn:Has; [|reflexivity].
      apply py_eq_str_r in Has. subst a.
      apply py_eq_str_r in Hks. subst k'.
      simpl in Hka. now rewrite String.eqb_refl in Hka.
Qed.

Lemma dict_get_In d k e :
  dict_get d k = Some e -> exists k', In (k', e) d /\ py_eq k' k = true.
Proof.
  induction d as [|[k' v'] d IH]; simpl; [discriminate|].
  destruct (py_eq k' k) eqn:Hk.
  - intros [= ->]. eauto.
  - intros H. destruct (IH H) as (k'' & Hin & Hk''). eauto.
Qed.

Lemma In_dict_set d a e k v :
  In (k, v) (dict_set d a e) ->
  In (k, v) d \/ (v = e /\ (k = a \/ py_eq k a = true)).
Proof.
  induction d as [|[k' v'] d IH]; simpl.
  - intros [[= <- <-]|[]]. right. auto.
  - destruct (py_eq k' a) eqn:Hka; simpl.
    + intros [[= <- <-]|H]; [right; auto | left; auto].
    + intros [H|H]; [left; auto|].
      destruct (IH H) as [H'|H']; [left; auto | right; auto].
Qed.

Lemma index_step_listed acc e :
  listed_ok e = true ->
  index_step acc e =
    Ok (if null_accessor e then acc
        else match subscript e "AccessorID" with
             | Ok a => dict_set acc a e
             | Raise _ => acc
             end).
Proof.
  unfold listed_ok, index_step, null_accessor.
  destruct e as [| | | | |d]; try discriminate. simpl.
  destruct (assoc "AccessorID" d) as [a|]; [|discriminate].
  simpl. unfold dict_setitem.
  destruct a; simpl; try discriminate; reflexivity.
Qed.

(** A record without the key stops the listing with a key error. *)
Lemma index_step_missing acc d :
  assoc "AccessorID" d = None ->
  index_step acc (JDict d) = Raise (KeyError "AccessorID").
Proof. unfold index_step. simpl. now intros ->. Qed.

Lemma foldM_app {A B} (f : A -> B -> result A) l1 l2 a :
  foldM f a (l1 ++ l2)%list = (a' <- foldM f a l1 ;; foldM f a' l2)%res.
Proof.
  revert a. induction l1 as [|b l1 IH]; intros a; simpl; [reflexivity|].
  destruct (f a b); simpl; [apply IH | reflexivity].
Qed.

Lemma foldM_index_listed l : forall acc,
  forallb listed_ok l = true ->
  exists idx,
    foldM index_step acc l = Ok idx /\
    (forall s, dict_get idx (JStr s) =
               match last_listed s l with
               | Some e => Some e
               | None => dict_get acc (JStr s)
               end) /\
    foldM index_step acc (filter (fun e => negb (null_accessor e)) l)
      = Ok idx.
Proof.
  induction l as [|e l IH]; intros acc H; simpl in *.
  - exists acc. repeat split.
  - apply andb_prop in H. destruct H as [He Hl].
    rewrite (index_step_listed acc e He). simpl.
    destruct (null_accessor e) eqn:Hnull; simpl.
    + destruct (IH acc Hl) as (idx & Hidx & Hget & Hfil).
      exists idx. repeat split; trivial.
      intros s. rewrite Hget, last_listed_cons.
      destruct (last_listed s l); [reflexivity|].
      unfold accessor_is. unfold null_accessor in Hnull.
      destruct (subscript e "AccessorID") as [a|]; [|reflexivity].
      destruct a; try discriminate. reflexivity.
    + rewrite (index_step_listed acc e He), Hnull.
      destruct (subscript e "AccessorID") as [a|] eqn:Ha.
      * destruct (IH (dict_set acc a e) Hl) as (idx & Hidx & Hget & Hfil).
        exists idx. repeat split; trivial.
        intros s. rewrite Hget, last_listed_cons.
        destruct (last_listed s l); [reflexivity|].
        rewrite dict_get_set_text. unfold accessor_is. rewrite Ha.
        now destruct (py_eq a (JStr s)).
      * unfold listed_ok in He. unfold subscript in Ha.
        destruct e; try discriminate.
        destruct (assoc "AccessorID" d); discriminate.
Qed.

Lemma index_step_entries items acc e idx :
  In e items ->
  Forall (index_entry_ok items) acc ->
  index_step acc e = Ok idx ->
  Forall (index_entry_ok items) idx.
Proof.
  intros Hin Hacc. unfold index_step.
  destruct e as [| | | | |d]; simpl; try discriminate.
  destruct (assoc "AccessorID" d) as [a|] eqn:Ha; simpl; [|discriminate].
  assert (Hset : dict_setitem acc a (JDict d) = Ok idx -> a <> JNull ->
                 Forall (index_entry_ok items) idx).
  { unfold dict_setitem. destruct (hashable a) eqn:Hh; [|discriminate].
    intros [= <-] Hnn. apply Forall_forall. intros [k v] Hkv.
    apply In_dict_set in Hkv. destruct Hkv as [Hkv|[-> Hk]].
    - rewrite Forall_forall in Hacc. exact (Hacc _ Hkv).
    - exists d, a. simpl. repeat split; trivial.
      destruct Hk as [->|Hk]; [now apply py_eq_refl_hashable | exact Hk]. }
  destruct a; try (intros H; apply Hset; [exact H | discriminate]).
  now intros [= <-].
Qed.

Lemma foldM_index_entries items l : forall acc idx,
  incl l items ->
  Forall (index_entry_ok items) acc ->
  foldM index_step acc l = Ok idx ->
  Forall (index_entry_ok items) idx.
Proof.
  induction l as [|e l IH]; intros acc idx Hincl Hacc; simpl.
  - now intros [= <-].
  - intros H. apply rbind_Ok in H. destruct H as (acc' & Hstep & Hrest).
    apply (IH acc'); trivial.
    + intros x Hx. apply Hincl. now right.
    + apply (index_step_entries items acc e); trivial.
      apply Hincl. now left.
Qed.

Lemma index_tokens_entries j idx :
  index_tokens j = Ok idx ->
  exists items, py_iter j = Ok items /\ Forall (index_entry_ok items) idx.
Proof.
  unfold index_tokens. intros H.
  apply rbind_Ok in H. destruct H as (items & Hit & Hfold).
  exists items. split; [exact Hit|].
  apply (foldM_index_entries items items []); auto using incl_refl.
Qed.

(** The record found under a text id carries that very id. *)
Lemma index_tokens_lookup j idx s e :
  index_tokens j = Ok idx ->
  dict_get idx (JStr s) = Some e ->
  exists d, e = JDict d /\ assoc "AccessorID" d = Some (JStr s).
Proof.
  intros Hidx Hget.
  destruct (index_tokens_entries _ _ Hidx) as (items & _ & Hall).
  destruct (dict_get_In _ _ _ Hget) as (k' & Hin & Hk).
  rewrite Forall_forall in Hall.
  destruct (Hall _ Hin) as (d & a & He & Ha & _ & Hka & _). simpl in *.
  apply py_eq_str_r in Hk. subst k'. apply py_eq_str_l in Hka. subst a.
  eauto.
Qed.

(** ** Building the configuration *)

Lemma Configuration_init_Ok p c :
  Configuration.init p = Ok c ->
  exists roles policies service_identities node_identities,
    mapM RoleLink.init (Params.roles p) = Ok roles /\
    mapM PolicyLink.init (Params.policies p) = Ok policies /\
    mapM ServiceIdentity.init (Params.service_identities p)
      = Ok service_identities /\
    mapM NodeIdentity.init (Params.node_identities p)
      = Ok node_identities /\
    c = Configuration.mk (Params.mgmt_token p) (Params.host p)
          (Params.port p) (Params.scheme p) (Params.validate_certs p)
          (Params.id p) (Params.description p) (Params.token p)
          roles policies service_identities node_identities
          (Params.local p) (Params.state p) None.
Proof.
  unfold Configuration.init. intros H.
  apply rbind_Ok in H. destruct H as (r & Hr & H).
  apply rbind_Ok in H. destruct H as (q & Hq & H).
  apply rbind_Ok in H. destruct H as (s & Hs & H).
  apply rbind_Ok in H. destruct H as (n & Hn & H).
  injection H as <-. exists r, q, s, n. auto.
Qed.

(** ** Requests and their outcome *)

(** Closes [accepted resp] for a response with a literal status. *)
Ltac accepted_status := unfold accepted; simpl; lia.

Lemma handle_accepted resp :
  accepted resp -> handle_consul_response_error resp = Ok tt.
Proof.
  unfold accepted, handle_consul_response_error. intros H.
  destruct (400 <=? status_code resp) eqn:H1;
    destruct (status_code resp <? 600) eqn:H2; simpl; try reflexivity.
  exfalso. apply H. apply Z.leb_le in H1. apply Z.ltb_lt in H2. lia.
Qed.

Lemma exchange_accepted resp j :
  accepted resp -> decoded resp = Some j -> exchange (Replied resp) = Ok j.
Proof.
  intros Ha Hj. simpl. rewrite (handle_accepted _ Ha). simpl.
  unfold response_json. now rewrite Hj.
Qed.

Section Traces.

Variable net : transport.

Lemma get_tokens_eq cfg tr :
  get_tokens net cfg tr =
    ((j <- exchange (net tr (tokens_request cfg)) ;; index_tokens j)%res,
     (tr ++ [tokens_request cfg])%list).
Proof.
  unfold get_tokens, bind, send, lift, tokens_request. simpl.
  destruct (net tr _) as [resp|m|m]; simpl; try reflexivity.
  destruct (handle_consul_response_error resp); simpl; [|reflexivity].
  destruct (response_json resp); reflexivity.
Qed.

Lemma get_token_eq id cfg tr :
  get_token net id cfg tr =
    (exchange (net tr (token_request id cfg)),
     (tr ++ [token_request id cfg])%list).
Proof.
  unfold get_token, bind, send, lift, token_request. simpl.
  destruct (net tr _) as [resp|m|m]; simpl; try reflexivity.
  destruct (handle_consul_response_error resp); simpl; reflexivity.
Qed.

Lemma get_consul_version_eq cfg tr :
  get_consul_version net cfg tr =
    ((j <- exchange (net tr (version_request cfg)) ;; reported_version j)%res,
     (tr ++ [version_request cfg])%list).
Proof.
  unfold get_consul_version, bind, send, lift, version_request,
    reported_version. simpl.
  destruct (net tr _) as [resp|m|m]; simpl; try reflexivity.
  destruct (handle_consul_response_error resp); simpl; [|reflexivity].
  destruct (response_json resp) as [j|]; simpl; [|reflexivity].
  destruct (subscript j "Config") as [c|]; simpl; [|reflexivity].
  destruct (subscript c "Version") as [[]|]; reflexivity.
Qed.

Lemma create_token_eq cfg tr :
  create_token net cfg tr =
    match create_token_data cfg with
    | Raise e => (Raise e, tr)
    | Ok body =>
        ((j <- exchange (net tr (create_request body cfg)) ;;
          Ok (mkOutput true CREATE_OPERATION (Some j)))%res,
         (tr ++ [create_request body cfg])%list)
    end.
Proof.
  unfold create_token, bind, send, lift, ret, create_request. simpl.
  destruct (create_token_data cfg) as [body|]; [|reflexivity].
  destruct (net tr _) as [resp|m|m]; simpl; try reflexivity.
  destruct (handle_consul_response_error resp); simpl; [|reflexivity].
  destruct (response_json resp); reflexivity.
Qed.

Lemma update_token_eq token cfg tr :
  update_token net token cfg tr =
    match dict_getitem token "AccessorID" with
    | Raise e => (Raise e, tr)
    | Ok accessor =>
        match update_token_data cfg with
        | Raise e => (Raise e, tr)
        | Ok body =>
            ((j <- exchange (net tr (update_request accessor body cfg)) ;;
              c <- token_changed token j ;;
              Ok (mkOutput c UPDATE_OPERATION (Some j)))%res,
             (tr ++ [update_request accessor body cfg])%list)
        end
    end.
Proof.
  unfold update_token, bind, send, lift, ret, update_request. simpl.
  destruct (dict_getitem token "AccessorID") as [a|]; [|reflexivity].
  destruct (update_token_data cfg) as [body|]; [|reflexivity].
  destruct (net tr _) as [resp|m|m]; simpl; try reflexivity.
  destruct (handle_consul_response_error resp); simpl; [|reflexivity].
  destruct (response_json resp) as [j|]; simpl; [|reflexivity].
  destruct (token_changed token j); reflexivity.
Qed.

Lemma remove_token_eq cfg tr tokens tr1 :
  get_tokens net cfg tr = (Ok tokens, tr1) ->
  remove_token net cfg tr =
    match dict_get tokens (JStr (Configuration.id cfg)) with
    | None => (Ok (mkOutput false REMOVE_OPERATION None), tr1)
    | Some entry =>
        match subscript entry "AccessorID" with
        | Raise e => (Raise e, tr1)
        | Ok token_id =>
            ((_ <- match net tr1 (delete_request token_id cfg) with
                   | Replied resp => handle_consul_response_error resp
                   | Unreachable msg => Raise (ConnectionError msg)
                   | Broken msg => Raise (TransportError msg)
                   end ;;
              Ok (mkOutput true REMOVE_OPERATION None))%res,
             (tr1 ++ [delete_request token_id cfg])%list)
        end
    end.
Proof.
  intros H. unfold remove_token. rewrite (bind_eq _ _ _ _ _ H).
  destruct (dict_get tokens _) as [entry|]; [|reflexivity].
  unfold bind, send, lift, ret, delete_request. simpl.
  destruct (subscript entry "AccessorID") as [a|]; [|reflexivity].
  destruct (net tr1 _) as [resp|m|m]; simpl; try reflexivity.
  destruct (handle_consul_response_error resp); reflexivity.
Qed.

Lemma set_token_eq cfg tr tokens tr1 :
  get_tokens net cfg tr = (Ok tokens, tr1) ->
  set_token net cfg tr =
    match dict_get tokens (JStr (Configuration.id cfg)) with
    | None => create_token net cfg tr1
    | Some index_token_object =>
        match subscript index_token_object "AccessorID" with
        | Raise e => (Raise e, tr1)
        | Ok token_id =>
            let tr2 := (tr1 ++ [token_request token_id cfg])%list in
            match exchange (net tr1 (token_request token_id cfg)) with
            | Raise e => (Raise e, tr2)
            | Ok rest_token_object =>
                match (token <- copy index_token_object ;;
                       dict_update token rest_token_object)%res with
                | Raise e => (Raise e, tr2)
                | Ok token => update_token net token cfg tr2
                end
            end
        end
    end.
Proof.
  intros H. unfold set_token. rewrite (bind_eq _ _ _ _ _ H).
  destruct (dict_get tokens _) as [entry|]; [|reflexivity].
  unfold bind at 1. unfold lift at 1.
  destruct (subscript entry "AccessorID") as [a|]; [|reflexivity].
  unfold bind at 1. rewrite get_token_eq.
  destruct (exchange _) as [rest|]; [|reflexivity].
  unfold bind, lift. simpl.
  destruct (copy entry) as [t0|]; simpl; [|reflexivity].
  destruct (dict_update t0 rest); reflexivity.
Qed.

(** [main] once the configuration is built and the version is known. *)
Lemma main_eq params cfg0 v tr tr0 :
  Configuration.init params = Ok cfg0 ->
  get_consul_version net cfg0 tr = (Ok v, tr0) ->
  main net true params tr =
    report cfg0
      (if String.eqb (Params.state params) PRESENT_STATE_VALUE
       then set_token net (Configuration.set_version cfg0 v) tr0
       else remove_token net (Configuration.set_version cfg0 v) tr0).
Proof.
  intros Hinit Hv. unfold main. simpl. rewrite Hinit.
  rewrite (bind_eq _ _ _ _ _ Hv).
  destruct (Configuration_init_Ok _ _ Hinit)
    as (r & p & s & n & _ & _ & _ & _ & ->).
  simpl. now destruct (String.eqb (Params.state params) PRESENT_STATE_VALUE).
Qed.

End Traces.

(** [report] leaves the list of requests as it is. *)
Lemma report_trace cfg r : snd (report cfg r) = snd r.
Proof. destruct r as [[out|[]] tr]; reflexivity. Qed.

(** ** Listing *)

Section Listing.

Variable net : transport.

(** C7 (amended). When the listing is accepted and decodes to a list,
    [get_tokens] returns, provided every listed record carries an
    ['AccessorID'] key: the index maps each text identity to the last
    record listed with it, records whose ['AccessorID'] is [None] are left
    out and change nothing.  A record that lacks the key, the ones before
    it being in order, stops [get_tokens] with a key error. *)
Theorem get_tokens_skips_null_accessors cfg tr resp l :
  net tr (tokens_request cfg) = Replied resp ->
  accepted resp ->
  decoded resp = Some (JList l) ->
  (forallb listed_ok l = true ->
   exists idx,
     get_tokens net cfg tr = (Ok idx, (tr ++ [tokens_request cfg])%list) /\
     (forall s, dict_get idx (JStr s) = last_listed s l) /\
     Forall (fun kv => fst kv <> JNull /\ In (snd kv) l /\
                       null_accessor (snd kv) = false) idx /\
     index_tokens (JList (filter (fun e => negb (null_accessor e)) l))
       = Ok idx) /\
  (forall l1 d l2,
     l = (l1 ++ JDict d :: l2)%list ->
     forallb listed_ok l1 = true ->
     assoc "AccessorID" d = None ->
     get_tokens net cfg tr =
       (Raise (KeyError "AccessorID"), (tr ++ [tokens_request cfg])%list)).
Proof.
  intros Hnet Hacc Hdec.
  rewrite get_tokens_eq, Hnet, (exchange_accepted _ _ Hacc Hdec). simpl.
  split.
  - intros Hok.
    destruct (foldM_index_listed l [] Hok) as (idx & Hidx & Hget & Hfil).
    exists idx. unfold index_tokens. simpl. rewrite Hidx, Hfil.
    repeat split.
    + intros s. rewrite Hget. now destruct (last_listed s l).
    + assert (Hent : index_tokens (JList l) = Ok idx) by exact Hidx.
      destruct (index_tokens_entries _ _ Hent) as (items & Hit & Hall).
      injection Hit as <-.
      eapply Forall_impl; [|exact Hall].
      intros [k e] (d & a & He & Ha & Hnn & Hka & Hin). simpl in *.
      subst e. repeat split; trivial.
      * intros ->. destruct a; simpl in Hka; congruence.
      * unfold null_accessor. simpl. rewrite Ha. now destruct a.
  - intros l1 d l2 -> Hok Hmiss. unfold index_tokens. simpl.
    rewrite foldM_app.
    destruct (foldM_index_listed l1 [] Hok) as (idx & -> & _). simpl.
    now rewrite (index_step_missing idx d Hmiss).
Qed.

End Listing.

Lemma get_tokens_skips_null_accessors_witness :
  let listing :=
    [sample_record (JStr "ID-1") "first"; sample_record JNull "anonymous";
     sample_record (JStr "ID-1") "second"] in
  let net := scripted [ok_json (JList listing)] in
  exists idx,
    get_tokens net (sample_configuration "1.8.0") [] =
      (Ok idx, [tokens_request (sample_configuration "1.8.0")]) /\
    dict_get idx (JStr "ID-1") = Some (sample_record (JStr "ID-1") "second") /\
    List.length idx = 1%nat.
Proof.
  intros listing net.
  destruct (get_tokens_skips_null_accessors net
              (sample_configuration "1.8.0") []
              (mkResponse 200 "" (Some (JList listing))) listing
              eq_refl ltac:(accepted_status) eq_refl)
    as [Hlisted _].
  destruct (Hlisted eq_refl) as (idx & Hrun & Hget & _ & Hfil).
  exists idx. split; [exact Hrun|]. split; [now rewrite Hget|].
  injection Hfil as <-. reflexivity.
Defined.

(** C7, as first stated, fails: a listed record without the
    ['AccessorID'] key is not skipped, [get_tokens] raises. *)
Lemma get_tokens_fails_without_accessor_key :
  let listing :=
    JList [JDict [("Description", JStr "anonymous"); ("Local", JBool false)];
           sample_record (JStr "ID-1") "first"] in
  fst (get_tokens (scripted [ok_json listing])
         (sample_configuration "1.8.0") [])
  = Raise (KeyError "AccessorID").
Proof. reflexivity. Qed.

(** ** Removal *)

Section Removal.

Variable net : transport.

(** C5. With desired presence absent: when the id is not a key of the
    index, the result is [changed = false], operation remove, and the only
    requests are the version and the listing ones; when it is a key,
    exactly one DELETE follows, addressed to the entry's accessor id (which
    is the id), and once it is accepted the result is [changed = true],
    operation remove. *)
Theorem absent_reconciliation params cfg0 v tr tr0 tokens tr1 :
  Configuration.init params = Ok cfg0 ->
  Params.state params = ABSENT_STATE_VALUE ->
  get_consul_version net cfg0 tr = (Ok v, tr0) ->
  get_tokens net (Configuration.set_version cfg0 v) tr0 = (Ok tokens, tr1) ->
  let cfg := Configuration.set_version cfg0 v in
  let delete := delete_request (JStr (Params.id params)) cfg in
  tr1 = (tr ++ [version_request cfg0; tokens_request cfg])%list /\
  (dict_contains tokens (JStr (Params.id params)) = false ->
   main net true params tr = (exit_json false REMOVE_OPERATION None, tr1)) /\
  (dict_contains tokens (JStr (Params.id params)) = true ->
   (exists entry,
      dict_get tokens (JStr (Params.id params)) = Some entry /\
      subscript entry "AccessorID" = Ok (JStr (Params.id params))) /\
   snd (main net true params tr) = (tr1 ++ [delete])%list /\
   forall resp,
     net tr1 delete = Replied resp -> accepted resp ->
     fst (main net true params tr) = exit_json true REMOVE_OPERATION None).
Proof.
  intros Hinit Hstate Hv Htok cfg delete.
  assert (Hid : Configuration.id cfg = Params.id params).
  { destruct (Configuration_init_Ok _ _ Hinit)
      as (r & p & s & n & _ & _ & _ & _ & ->). reflexivity. }
  rewrite (main_eq net params cfg0 v tr tr0 Hinit Hv), Hstate. simpl.
  fold cfg in Htok |- *.
  rewrite (remove_token_eq net cfg tr0 tokens tr1 Htok), Hid.
  split.
  - rewrite get_consul_version_eq in Hv. rewrite get_tokens_eq in Htok.
    injection Hv as _ <-. injection Htok as _ <-.
    now rewrite <- app_assoc.
  - unfold dict_contains.
    destruct (dict_get tokens (JStr (Params.id params))) as [entry|] eqn:Hget.
    + split; [discriminate | intros _].
      rewrite get_tokens_eq in Htok. injection Htok as Htok _.
      apply rbind_Ok in Htok. destruct Htok as (j & _ & Hidx).
      destruct (index_tokens_lookup _ _ _ _ Hidx Hget) as (d & -> & Ha).
      simpl. rewrite Ha. fold delete.
      split; [exists (JDict d); split; [reflexivity | simpl; now rewrite Ha]|].
      destruct (net tr1 delete) as [resp'|m|m] eqn:Hnet.
      * split.
        -- now rewrite report_trace.
        -- intros resp [= <-] Hacc. now rewrite (handle_accepted _ Hacc).
      * split; [now rewrite report_trace | discriminate].
      * split; [now rewrite report_trace | discriminate].
    + split; [reflexivity | discriminate].
Qed.

End Removal.

Lemma absent_reconciliation_witness :
  let net :=
    scripted [ok_json (sample_self "1.8.0");
              ok_json (JList [sample_record (JStr "ID-1") "first"]);
              Replied (mkResponse 200 "true" None)] in
  let cfg0 := sample_configuration0 ABSENT_STATE_VALUE in
  let cfg := Configuration.set_version cfg0 (mkConsulVersion "1" "8" "0") in
  main net true (sample_params ABSENT_STATE_VALUE) []
  = (exit_json true REMOVE_OPERATION None,
     [version_request cfg0; tokens_request cfg;
      delete_request (JStr "ID-1") cfg]).
Proof.
  intros net cfg0 cfg.
  destruct (absent_reconciliation net (sample_params ABSENT_STATE_VALUE)
              cfg0 (mkConsulVersion "1" "8" "0") [] _ _ _
              eq_refl eq_refl eq_refl eq_refl)
    as (_ & _ & Hpresent).
  destruct (Hpresent eq_refl) as (_ & Htrace & Hout).
  specialize (Hout (mkResponse 200 "true" None) eq_refl
                ltac:(accepted_status)).
  destruct (main net true (sample_params ABSENT_STATE_VALUE) [])
    as [out trace].
  simpl in Htrace, Hout. now subst.
Defined.

(** ** Request bodies *)

Lemma at_least_eq v s w m :
  ConsulVersion_init s = Ok w -> version_int w = Ok m ->
  at_least v s = (n <- version_int v ;; Ok (n >=? m))%res.
Proof.
  intros Hw Hm. unfold at_least, version_ge. rewrite Hw. simpl.
  destruct (version_int v); simpl; [now rewrite Hm | reflexivity].
Qed.

Lemma at_least_1_5_0 v :
  at_least v "1.5.0" = (n <- version_int v ;; Ok (n >=? 150))%res.
Proof. now apply (at_least_eq v "1.5.0" (mkConsulVersion "1" "5" "0")). Qed.

Lemma at_least_1_8_0 v :
  at_least v "1.8.0" = (n <- version_int v ;; Ok (n >=? 180))%res.
Proof. now apply (at_least_eq v "1.8.0" (mkConsulVersion "1" "8" "0")). Qed.

Lemma create_token_data_eq cfg v :
  Configuration.version cfg = Some v ->
  create_token_data cfg =
    (n <- version_int v ;;
     Ok (JDict (create_fields cfg ++ gated_fields cfg n)%list))%res.
Proof.
  intros Hv. unfold create_token_data, Configuration.get_version.
  rewrite Hv. cbn [rbind].
  change (ConsulVersion_init "1.5.0") with (Ok (mkConsulVersion "1" "5" "0")).
  change (ConsulVersion_init "1.8.0") with (Ok (mkConsulVersion "1" "8" "0")).
  cbn [rbind]. unfold version_ge.
  change (version_int (mkConsulVersion "1" "5" "0")) with (Ok 150).
  change (version_int (mkConsulVersion "1" "8" "0")) with (Ok 180).
  destruct (version_int v) as [n|]; cbn [rbind]; [|reflexivity].
  unfold gated_fields, create_fields, secret_of.
  destruct (n >=? 150), (n >=? 180); reflexivity.
Qed.

Lemma update_token_data_eq cfg v :
  Configuration.version cfg = Some v ->
  update_token_data cfg =
    (n <- version_int v ;;
     Ok (JDict (update_fields cfg ++ gated_fields cfg n)%list))%res.
Proof.
  intros Hv. unfold update_token_data, Configuration.get_version.
  rewrite Hv. cbn [rbind].
  change (ConsulVersion_init "1.5.0") with (Ok (mkConsulVersion "1" "5" "0")).
  change (ConsulVersion_init "1.8.0") with (Ok (mkConsulVersion "1" "8" "0")).
  cbn [rbind]. unfold version_ge.
  change (version_int (mkConsulVersion "1" "5" "0")) with (Ok 150).
  change (version_int (mkConsulVersion "1" "8" "0")) with (Ok 180).
  destruct (version_int v) as [n|]; cbn [rbind]; [|reflexivity].
  unfold gated_fields, update_fields.
  destruct (n >=? 150), (n >=? 180); reflexivity.
Qed.

Lemma gated_body cfg v n fields :
  version_int v = Ok n ->
  assoc "ServiceIdentities" fields = None ->
  assoc "NodeIdentities" fields = None ->
  gated cfg v (JDict (fields ++ gated_fields cfg n)%list).
Proof.
  intros Hn Hs Hnode.
  assert (Happ : forall k (l1 l2 : list (string * json)),
             assoc k l1 = None -> assoc k (l1 ++ l2)%list = assoc k l2).
  { intros k l1 l2. induction l1 as [|[k' x] l1 IH]; simpl; [reflexivity|].
    destruct (String.eqb k k'); [discriminate | exact IH]. }
  unfold gated, has_key, subscript.
  rewrite !Happ by assumption.
  rewrite at_least_1_5_0, at_least_1_8_0, Hn. unfold gated_fields. simpl.
  destruct (n >=? 150), (n >=? 180); simpl;
    repeat split; intros; congruence.
Qed.

(** C2. Every request that [create_token] or [update_token] issues is a
    PUT whose body carries ['ServiceIdentities'] exactly when the version
    compares [>=] 1.5.0 and ['NodeIdentities'] exactly when it compares
    [>=] 1.8.0; a field that is let through holds the configured
    identities, a field that is not is no key of the body at all.  For the
    versions 1.4.9, 1.5.0 and 1.8.0 both bodies are built, with neither
    field, the first only, and both. *)
Theorem version_gating :
  (forall net cfg v token tr r,
     Configuration.version cfg = Some v ->
     In r (snd (create_token net cfg tr)) \/
     In r (snd (update_token net token cfg tr)) ->
     ~ In r tr ->
     exists body,
       req_method r = PUT /\ req_json r = Some body /\ gated cfg v body) /\
  (forall cfg s v,
     In s ["1.4.9"; "1.5.0"; "1.8.0"] ->
     ConsulVersion_init s = Ok v ->
     Configuration.version cfg = Some v ->
     exists created updated,
       create_token_data cfg = Ok created /\
       update_token_data cfg = Ok updated /\
       forall body, body = created \/ body = updated ->
         has_key body "ServiceIdentities" = negb (String.eqb s "1.4.9") /\
         has_key body "NodeIdentities" = String.eqb s "1.8.0").
Proof.
  split.
  - intros net cfg v token tr r Hv Hin Hnew.
    assert (Hlast : forall q, In r (tr ++ [q])%list -> r = q).
    { intros q Hq. apply in_app_or in Hq.
      destruct Hq as [Hq|[Hq|[]]]; [contradiction | now subst]. }
    destruct Hin as [Hin|Hin].
    + rewrite create_token_eq, (create_token_data_eq cfg v Hv) in Hin.
      destruct (version_int v) as [n|] eqn:Hn; simpl in Hin;
        [|contradiction].
      apply Hlast in Hin. subst r. eexists.
      split; [reflexivity|]. split; [reflexivity|].
      apply (gated_body cfg v n (create_fields cfg)); trivial.
    + rewrite update_token_eq, (update_token_data_eq cfg v Hv) in Hin.
      destruct (dict_getitem token "AccessorID") as [a|]; simpl in Hin;
        [|contradiction].
      destruct (version_int v) as [n|] eqn:Hn; simpl in Hin;
        [|contradiction].
      apply Hlast in Hin. subst r. eexists.
      split; [reflexivity|]. split; [reflexivity|].
      apply (gated_body cfg v n (update_fields cfg)); trivial.
  - intros cfg s v Hs Hinit Hv.
    rewrite (create_token_data_eq cfg v Hv), (update_token_data_eq cfg v Hv).
    destruct Hs as [<-|[<-|[<-|[]]]]; injection Hinit as <-;
      do 2 eexists; (split; [reflexivity|]); (split; [reflexivity|]);
      intros body [->| ->]; split; reflexivity.
Qed.

Lemma version_gating_witness :
  let cfg := sample_configuration "1.5.0" in
  let net := scripted [ok_json (sample_record (JStr "ID-1") "")] in
  exists r body,
    snd (create_token net cfg []) = [r] /\
    req_json r = Some body /\
    subscript body "ServiceIdentities" =
      Ok (JList [JDict [("ServiceName", JStr "web");
                        ("Datacenters", JList [JStr "dc1"])]]) /\
    has_key body "NodeIdentities" = false.
Proof.
  intros cfg net.
  destruct (proj1 version_gating net cfg (mkConsulVersion "1" "5" "0") []
              [] (create_request
                    (JDict (create_fields cfg ++ gated_fields cfg 150)%list)
                    cfg)
              eq_refl (or_introl (or_introl eq_refl)) (fun H => H))
    as (body & _ & Hbody & Hs & Hn & Hsv & _).
  exists (create_request
            (JDict (create_fields cfg ++ gated_fields cfg 150)%list) cfg), body.
  split; [reflexivity|]. split; [exact Hbody|].
  split; [apply Hsv, Hs; reflexivity|].
  destruct (has_key body "NodeIdentities"); [|reflexivity].
  destruct Hn as [Hn _]. discriminate (Hn eq_refl).
Defined.

(** ** Links on the wire *)

Lemma PolicyLink_wire x p :
  PolicyLink.init x = Ok p -> PolicyLink.to_dict p = link_wire x.
Proof.
  unfold PolicyLink.init, json_get, link_wire, field_or_null.
  destruct x as [| | | | |d]; simpl; try discriminate.
  destruct (assoc "id" d), (assoc "name" d); simpl; now intros [= <-].
Qed.

Lemma RoleLink_wire x p :
  RoleLink.init x = Ok p -> RoleLink.to_dict p = link_wire x.
Proof.
  unfold RoleLink.init, json_get, link_wire, field_or_null.
  destruct x as [| | | | |d]; simpl; try discriminate.
  destruct (assoc "id" d), (assoc "name" d); simpl; now intros [= <-].
Qed.

Lemma mapM_wire {A} (init : json -> result A) (to_dict : A -> json) :
  (forall x p, init x = Ok p -> to_dict p = link_wire x) ->
  forall l ps, mapM init l = Ok ps -> map to_dict ps = map link_wire l.
Proof.
  intros Hwire. induction l as [|x l IH]; intros ps; simpl.
  - now intros [= <-].
  - intros H. apply rbind_Ok in H. destruct H as (p & Hp & H).
    apply rbind_Ok in H. destruct H as (ps' & Hps & H).
    injection H as <-. simpl. now rewrite (Hwire _ _ Hp), (IH _ Hps).
Qed.

(** Links are never refused for what they hold: a dictionary always
    yields a link. *)
Lemma mapM_links_Ok {A} (init : json -> result A) :
  (forall d, exists p, init (JDict d) = Ok p) ->
  forall l, forallb is_dict l = true -> exists ps, mapM init l = Ok ps.
Proof.
  intros Hinit. induction l as [|x l IH]; simpl; intros H.
  - eauto.
  - apply andb_prop in H. destruct H as [Hx Hl].
    destruct x as [| | | | |d]; try discriminate.
    destruct (Hinit d) as (p & ->). destruct (IH Hl) as (ps & ->).
    simpl. eauto.
Qed.

Lemma PolicyLink_init_dict d : exists p, PolicyLink.init (JDict d) = Ok p.
Proof.
  unfold PolicyLink.init. simpl.
  destruct (assoc "id" d), (assoc "name" d); simpl; eauto.
Qed.

Lemma RoleLink_init_dict d : exists p, RoleLink.init (JDict d) = Ok p.
Proof.
  unfold RoleLink.init. simpl.
  destruct (assoc "id" d), (assoc "name" d); simpl; eauto.
Qed.

(** ** Creation *)

Section Creation.

Variable net : transport.

(** C1. With desired presence present and the id no key of the index, the
    invocation issues, after the version and listing requests, exactly one
    more request: a PUT to the creation endpoint whose body holds
    AccessorID (the id), Description, SecretID (the secret seed or null),
    Policies and Roles (each link as [{ID, Name}], a missing field null)
    and Local, followed by the identity fields the version lets through.
    Once that PUT is accepted and decodes, the result is [changed = true],
    operation create, token the response body. *)
Theorem create_path params cfg0 v n tr tr0 tokens tr1 :
  Configuration.init params = Ok cfg0 ->
  Params.state params = PRESENT_STATE_VALUE ->
  get_consul_version net cfg0 tr = (Ok v, tr0) ->
  version_int v = Ok n ->
  get_tokens net (Configuration.set_version cfg0 v) tr0 = (Ok tokens, tr1) ->
  dict_contains tokens (JStr (Params.id params)) = false ->
  let cfg := Configuration.set_version cfg0 v in
  let body :=
    JDict ([("AccessorID", JStr (Params.id params));
            ("Description", JStr (Params.description params));
            ("SecretID", secret_of (Params.token params));
            ("Policies", JList (map link_wire (Params.policies params)));
            ("Roles", JList (map link_wire (Params.roles params)));
            ("Local", JBool (Params.local params))]
           ++ gated_fields cfg n)%list in
  snd (main net true params tr) =
    (tr ++ [version_request cfg0; tokens_request cfg;
            create_request body cfg])%list /\
  forall resp j,
    net tr1 (create_request body cfg) = Replied resp ->
    accepted resp -> decoded resp = Some j ->
    fst (main net true params tr) = exit_json true CREATE_OPERATION (Some j).
Proof.
  intros Hinit Hstate Hv Hn Htok Hno cfg body0.
  destruct (Configuration_init_Ok _ _ Hinit)
    as (r & p & s & nd & Hr & Hp & _ & _ & Hcfg0).
  assert (Htr1 : tr1 = (tr ++ [version_request cfg0; tokens_request cfg])%list).
  { rewrite get_consul_version_eq in Hv. rewrite get_tokens_eq in Htok.
    injection Hv as _ <-. injection Htok as _ <-. now rewrite <- app_assoc. }
  assert (Hdata : create_token_data cfg =
                  Ok (JDict (create_fields cfg ++ gated_fields cfg n)%list)).
  { rewrite (create_token_data_eq cfg v); [now rewrite Hn|].
    unfold cfg. now rewrite Hcfg0. }
  assert (Hfields : create_fields cfg =
            [("AccessorID", JStr (Params.id params));
             ("Description", JStr (Params.description params));
             ("SecretID", secret_of (Params.token params));
             ("Policies", JList (map link_wire (Params.policies params)));
             ("Roles", JList (map link_wire (Params.roles params)));
             ("Local", JBool (Params.local params))]).
  { unfold create_fields, cfg. rewrite Hcfg0. simpl.
    rewrite (mapM_wire PolicyLink.init PolicyLink.to_dict PolicyLink_wire
               _ _ Hp).
    now rewrite (mapM_wire RoleLink.init RoleLink.to_dict RoleLink_wire
                   _ _ Hr). }
  assert (Hid : Configuration.id cfg = Params.id params).
  { unfold cfg. now rewrite Hcfg0. }
  unfold body0. clear body0. rewrite <- Hfields.
  remember (JDict (create_fields cfg ++ gated_fields cfg n)%list) as body.
  rewrite (main_eq net params cfg0 v tr tr0 Hinit Hv), Hstate.
  change (String.eqb PRESENT_STATE_VALUE PRESENT_STATE_VALUE) with true.
  cbv iota. fold cfg. rewrite (set_token_eq net cfg tr0 tokens tr1 Htok), Hid.
  unfold dict_contains in Hno.
  destruct (dict_get tokens (JStr (Params.id params))); [discriminate|].
  rewrite create_token_eq, Hdata, report_trace.
  split.
  - cbn [snd]. rewrite Htr1, <- app_assoc. reflexivity.
  - intros resp j Hnet Hacc Hdec.
    now rewrite Hnet, (exchange_accepted _ _ Hacc Hdec).
Qed.

End Creation.

Lemma create_path_witness :
  let created := sample_record (JStr "ID-1") "" in
  let net :=
    scripted [ok_json (sample_self "1.4.9"); ok_json (JList []);
              ok_json created] in
  let cfg0 := sample_configuration0 PRESENT_STATE_VALUE in
  let cfg := Configuration.set_version cfg0 (mkConsulVersion "1" "4" "9") in
  main net true (sample_params PRESENT_STATE_VALUE) [] =
    (exit_json true CREATE_OPERATION (Some created),
     [version_request cfg0; tokens_request cfg;
      create_request
        (JDict [("AccessorID", JStr "ID-1"); ("Description", JStr "");
                ("SecretID", JNull);
                ("Policies",
                 JList [JDict [("ID", JNull); ("Name", JStr "p1")]]);
                ("Roles", JList []); ("Local", JBool false)])
        cfg]).
Proof.
  intros created net cfg0 cfg.
  destruct (create_path net (sample_params PRESENT_STATE_VALUE)
              cfg0 (mkConsulVersion "1" "4" "9") 149 [] _ _ _
              eq_refl eq_refl eq_refl eq_refl eq_refl eq_refl)
    as (Htrace & Hout).
  specialize (Hout (mkResponse 200 "" (Some created)) created eq_refl
                ltac:(accepted_status) eq_refl).
  destruct (main net true (sample_params PRESENT_STATE_VALUE) [])
    as [out trace].
  simpl in Htrace, Hout. now subst.
Defined.

(** C1, as first stated, fails: with desired presence present and the id
    no key of the index, an agent whose version does not read as a number
    ("1.8.0+ent") gets no PUT at all; the invocation ends in the ValueError
    of [int] after the version and listing requests. *)
Lemma create_path_fails_on_unreadable_version :
  let net :=
    scripted [ok_json (sample_self "1.8.0+ent"); ok_json (JList []);
              ok_json (sample_record (JStr "ID-1") "")] in
  let p := sample_params PRESENT_STATE_VALUE in
  let cfg0 := sample_configuration0 PRESENT_STATE_VALUE in
  let v := mkConsulVersion "1" "8" "0+ent" in
  let cfg := Configuration.set_version cfg0 v in
  Configuration.init p = Ok cfg0 /\
  Params.state p = PRESENT_STATE_VALUE /\
  get_consul_version net cfg0 [] = (Ok v, [version_request cfg0]) /\
  get_tokens net cfg [version_request cfg0] =
    (Ok [], [version_request cfg0; tokens_request cfg]) /\
  dict_contains [] (JStr (Params.id p)) = false /\
  main net true p [] =
    (uncaught (ValueError "invalid literal for int() with base 10"),
     [version_request cfg0; tokens_request cfg]).
Proof. repeat split. Qed.

(** C9 asks that a link with neither id nor name be refused; the module
    documents the same ("Each element must have a name or id"), yet the
    link classes check nothing: such a link is built and sent as
    [{ID: null, Name: null}]. *)
Lemma empty_link_is_passed_through :
  let params :=
    Params.mk None "localhost" 8500 "http" true "ID-1" ""
      [JDict []] [JDict []] [] [] false None PRESENT_STATE_VALUE in
  let created := sample_record (JStr "ID-1") "" in
  let net :=
    scripted [ok_json (sample_self "1.4.9"); ok_json (JList []);
              ok_json created] in
  exists cfg request,
    Configuration.init params = Ok cfg /\
    Configuration.policies cfg = [PolicyLink.mk JNull JNull] /\
    Configuration.roles cfg = [RoleLink.mk JNull JNull] /\
    main net true params [] =
      (exit_json true CREATE_OPERATION (Some created),
       [version_request cfg; tokens_request cfg; request]) /\
    req_method request = PUT /\
    req_json request =
      Some (JDict [("AccessorID", JStr "ID-1"); ("Description", JStr "");
                   ("SecretID", JNull);
                   ("Policies",
                    JList [JDict [("ID", JNull); ("Name", JNull)]]);
                   ("Roles", JList [JDict [("ID", JNull); ("Name", JNull)]]);
                   ("Local", JBool false)]).
Proof. intros. do 2 eexists. repeat split. Qed.

(** ** Validation of identities *)

Lemma ServiceIdentity_init_valid x :
  names_identity x = true -> exists s, ServiceIdentity.init x = Ok s.
Proof.
  destruct x as [| | | | |d]; simpl; try discriminate.
  destruct (assoc "name" d); [eauto | discriminate].
Qed.

Lemma ServiceIdentity_init_invalid x :
  names_identity x = false ->
  ServiceIdentity.init x = Raise (ValueError ServiceIdentity.error_message).
Proof.
  destruct x as [| | | | |d]; simpl; try reflexivity.
  destruct (assoc "name" d); [discriminate | reflexivity].
Qed.

Lemma NodeIdentity_init_valid x :
  names_identity x = true -> exists s, NodeIdentity.init x = Ok s.
Proof.
  destruct x as [| | | | |d]; simpl; try discriminate.
  destruct (assoc "name" d); [eauto | discriminate].
Qed.

Lemma NodeIdentity_init_invalid x :
  names_identity x = false ->
  NodeIdentity.init x = Raise (ValueError NodeIdentity.error_message).
Proof.
  destruct x as [| | | | |d]; simpl; try reflexivity.
  destruct (assoc "name" d); [discriminate | reflexivity].
Qed.

(** Building a list of identities stops at the first one that is not
    accepted. *)
Lemma mapM_identities {A} (init : json -> result A) (e : exn) :
  (forall x, names_identity x = true -> exists s, init x = Ok s) ->
  (forall x, names_identity x = false -> init x = Raise e) ->
  forall l,
    if forallb names_identity l
    then exists r, mapM init l = Ok r
    else mapM init l = Raise e.
Proof.
  intros Hvalid Hinvalid. induction l as [|x l IH]; simpl.
  - eauto.
  - destruct (names_identity x) eqn:Hx; simpl.
    + destruct (Hvalid x Hx) as (s & ->). simpl.
      destruct (forallb names_identity l).
      * destruct IH as (r & ->). simpl. eauto.
      * now rewrite IH.
    + now rewrite (Hinvalid x Hx).
Qed.

(** C8. When some service identity or node identity of the desired state
    is no dictionary or has no ['name'] key (the role and policy links
    being dictionaries, as the argument specification makes them), the
    invocation ends in [fail_json] with a configuration error carrying the
    validation message, and the list of requests is as it was: nothing was
    sent, not even the version request. *)
Theorem invalid_identity_is_configuration_error net params tr :
  forallb is_dict (Params.roles params) = true ->
  forallb is_dict (Params.policies params) = true ->
  forallb names_identity
    (Params.service_identities params ++ Params.node_identities params)
    = false ->
  exists err,
    Configuration.init params = Raise (ValueError err) /\
    main net true params tr = (fail_json (ConfigurationError err), tr) /\
    err = (if forallb names_identity (Params.service_identities params)
           then NodeIdentity.error_message
           else ServiceIdentity.error_message).
Proof.
  intros Hroles Hpolicies Hbad.
  destruct (mapM_links_Ok RoleLink.init RoleLink_init_dict _ Hroles)
    as (r & Hr).
  destruct (mapM_links_Ok PolicyLink.init PolicyLink_init_dict _ Hpolicies)
    as (p & Hp).
  pose proof (mapM_identities ServiceIdentity.init _
                ServiceIdentity_init_valid ServiceIdentity_init_invalid
                (Params.service_identities params)) as Hs.
  pose proof (mapM_identities NodeIdentity.init _
                NodeIdentity_init_valid NodeIdentity_init_invalid
                (Params.node_identities params)) as Hn.
  rewrite forallb_app in Hbad.
  assert (Hinit : Configuration.init params =
            Raise (ValueError
                     (if forallb names_identity
                           (Params.service_identities params)
                      then NodeIdentity.error_message
                      else ServiceIdentity.error_message))).
  { unfold Configuration.init. rewrite Hr, Hp. simpl.
    destruct (forallb names_identity (Params.service_identities params)).
    - destruct Hs as (s & ->). simpl in *. rewrite Hbad in Hn.
      now rewrite Hn.
    - now rewrite Hs. }
  eexists. split; [exact Hinit|]. split; [|reflexivity].
  unfold main. simpl. now rewrite Hinit.
Qed.

Lemma invalid_identity_is_configuration_error_witness :
  let params :=
    Params.mk None "localhost" 8500 "http" true "ID-1" "" []
      [JDict [("name", JStr "p1")]]
      [JDict [("datacenters", JList [JStr "dc1"])]] [] false None
      PRESENT_STATE_VALUE in
  main (scripted []) true params [] =
    (fail_json (ConfigurationError ServiceIdentity.error_message), []).
Proof.
  intros params.
  destruct (invalid_identity_is_configuration_error (scripted []) params []
              eq_refl eq_refl eq_refl) as (err & _ & Hmain & ->).
  exact Hmain.
Defined.

(** ** The merged view *)

Lemma dict_get_copy e k : dict_get (dict_copy e) (JStr k) = assoc k e.
Proof.
  induction e as [|[k' x] e IH]; simpl; [reflexivity|].
  rewrite String.eqb_sym. destruct (String.eqb k k'); [reflexivity | exact IH].
Qed.

Lemma assoc_not_In {V} k (o : list (string * V)) :
  ~ In k (map fst o) -> assoc k o = None.
Proof.
  induction o as [|[k' x] o IH]; simpl; [reflexivity|].
  intros H. destruct (String.eqb k k') eqn:Hk.
  - apply String.eqb_eq in Hk. subst. tauto.
  - apply IH. tauto.
Qed.

(** After [d.update(o)] a key of [o] has [o]'s value, any other key keeps
    the value it had in [d]. *)
Lemma dict_get_update o : forall d k,
  NoDup (map fst o) ->
  dict_get
    (fold_left (fun acc kv => dict_set acc (JStr (fst kv)) (snd kv)) o d)
    (JStr k) =
    match assoc k o with
    | Some v => Some v
    | None => dict_get d (JStr k)
    end.
Proof.
  induction o as [|[k0 v0] o IH]; intros d k Hnd; simpl; [reflexivity|].
  inversion Hnd as [|? ? Hnotin Hnd']; subst.
  rewrite (IH _ _ Hnd'), dict_get_set_text. simpl.
  rewrite String.eqb_sym.
  destruct (String.eqb k k0) eqn:Hk; [|reflexivity].
  apply String.eqb_eq in Hk. subst k0.
  now rewrite (assoc_not_In _ _ Hnotin).
Qed.

(** ** Change detection *)

Lemma json_get_dict d f :
  json_get (JDict d) f = Ok (field_or_null (JDict d) f).
Proof. simpl. now destruct (assoc f d). Qed.

Lemma token_changed_Ok token j c :
  token_changed token j = Ok c ->
  c = existsb (field_differs token j) compared_fields.
Proof.
  unfold token_changed. intros H.
  apply rbind_Ok in H. destruct H as (d1 & Hd1 & H).
  apply rbind_Ok in H. destruct H as (d2 & Hd2 & H).
  destruct j as [| | | | |d]; try discriminate.
  assert (Hstrict : forall f x y,
             dict_getitem token f = Ok x -> subscript (JDict d) f = Ok y ->
             field_differs token (JDict d) f = py_ne x y).
  { intros f x y. unfold dict_getitem, field_differs, dict_get_default.
    simpl. destruct (dict_get token (JStr f)); [|discriminate].
    destruct (assoc f d); [|discriminate]. now intros [= ->] [= ->]. }
  cbn [existsb compared_fields]. rewrite (Hstrict _ _ _ Hd1 Hd2).
  destruct (py_ne d1 d2); [now injection H as <-|].
  apply rbind_Ok in H. destruct H as (l1 & Hl1 & H).
  apply rbind_Ok in H. destruct H as (l2 & Hl2 & H).
  rewrite (Hstrict _ _ _ Hl1 Hl2).
  destruct (py_ne l1 l2); [now injection H as <-|].
  rewrite !json_get_dict in H. cbn [rbind] in H. unfold field_differs.
  destruct (py_ne (dict_get_default token "Policies") _);
    [now injection H as <-|].
  destruct (py_ne (dict_get_default token "Roles") _);
    [now injection H as <-|].
  destruct (py_ne (dict_get_default token "ServiceIdentities") _);
    [now injection H as <-|].
  injection H as <-. cbn [orb]. now rewrite orb_false_r.
Qed.

Lemma existsb_same_compared token token' j j' :
  same_compared_fields token token' j j' ->
  existsb (field_differs token j) compared_fields =
  existsb (field_differs token' j') compared_fields.
Proof.
  unfold same_compared_fields, field_differs.
  generalize compared_fields as l.
  induction l as [|f l IH]; intros Hsame; simpl; [reflexivity|].
  destruct (Hsame f (or_introl eq_refl)) as [-> ->]. f_equal.
  apply IH. intros g Hg. apply Hsame. now right.
Qed.

Section Update.

Variable net : transport.

(** C3. Whenever [update_token] returns, its [changed] flag is true exactly
    when one of Description, Local, Policies, Roles, ServiceIdentities,
    NodeIdentities differs between the merged view and the response body,
    an absent key counting as [None]; and the flag is the same for any
    other view and body that agree with these on the six fields, whatever
    else they hold. *)
Theorem changed_iff_compared_field_differs view cfg tr out tr' :
  update_token net view cfg tr = (Ok out, tr') ->
  exists j,
    token out = Some j /\ operation out = UPDATE_OPERATION /\
    (changed out = true <->
     exists f, In f compared_fields /\ field_differs view j f = true) /\
    (forall view' j' c',
       same_compared_fields view view' j j' ->
       token_changed view' j' = Ok c' -> c' = changed out).
Proof.
  rewrite update_token_eq.
  destruct (dict_getitem view "AccessorID") as [a|]; [|discriminate].
  destruct (update_token_data cfg) as [body|]; [|discriminate].
  intros [= H _].
  apply rbind_Ok in H. destruct H as (j & _ & H).
  apply rbind_Ok in H. destruct H as (c & Hc & H).
  injection H as <-. exists j. cbn [token operation changed].
  apply token_changed_Ok in Hc.
  split; [reflexivity|]. split; [reflexivity|]. split.
  - rewrite Hc, existsb_exists. reflexivity.
  - intros view' j' c' Hsame Hc'. apply token_changed_Ok in Hc'.
    rewrite Hc, Hc'. symmetry. now apply existsb_same_compared.
Qed.

End Update.

Lemma changed_iff_compared_field_differs_witness :
  let net := scripted [ok_json sample_updated] in
  fst (update_token net sample_token (sample_configuration "1.4.9") [])
    = Ok (mkOutput true UPDATE_OPERATION (Some sample_updated)) /\
  field_differs sample_token sample_updated "Policies" = true /\
  token_changed (sample_token ++ [(JStr "ModifyIndex", JInt 4)])%list
    sample_updated = Ok true.
Proof.
  intros net.
  destruct (changed_iff_compared_field_differs net sample_token
              (sample_configuration "1.4.9") []
              (mkOutput true UPDATE_OPERATION (Some sample_updated)) _
              eq_refl) as (j & Hj & _ & Hiff & Hsame).
  split; [reflexivity|]. split; [reflexivity|].
  injection Hj as <-.
  destruct (token_changed
              (sample_token ++ [(JStr "ModifyIndex", JInt 4)])%list
              sample_updated) as [c|e] eqn:Hc; [|discriminate Hc].
  f_equal.
  apply (Hsame (sample_token ++ [(JStr "ModifyIndex", JInt 4)])%list
           sample_updated c); [|exact Hc].
  intros f Hf. simpl in Hf.
  repeat (destruct Hf as [<-|Hf]; [split; reflexivity|]). contradiction.
Defined.

Section Merge.

Variable net : transport.

Lemma update_token_changed view cfg tr out tr' :
  update_token net view cfg tr = (Ok out, tr') ->
  exists j, token out = Some j /\ token_changed view j = Ok (changed out).
Proof.
  rewrite update_token_eq.
  destruct (dict_getitem view "AccessorID") as [a|]; [|discriminate].
  destruct (update_token_data cfg) as [body|]; [|discriminate].
  intros [= H _].
  apply rbind_Ok in H. destruct H as (j & _ & H).
  apply rbind_Ok in H. destruct H as (c & Hc & H).
  injection H as <-. exists j. now split.
Qed.

(** C4. On the update path the view that change detection starts from is
    the index entry overwritten by the full single-token fetch: under every
    key the full record's value if it has one, the index entry's value
    otherwise.  [set_token] hands exactly this view to [update_token], and
    the [changed] flag it returns is computed from it; so a Description
    that only the full fetch carries is the one compared. *)
Theorem merge_before_update cfg tr tokens tr1 index_entry resp full :
  get_tokens net cfg tr = (Ok tokens, tr1) ->
  dict_get tokens (JStr (Configuration.id cfg)) = Some index_entry ->
  net tr1 (token_request (JStr (Configuration.id cfg)) cfg) = Replied resp ->
  accepted resp ->
  decoded resp = Some (JDict full) ->
  NoDup (map fst full) ->
  exists entry merged,
    index_entry = JDict entry /\
    (forall k, dict_get merged (JStr k) =
               match assoc k full with
               | Some x => Some x
               | None => assoc k entry
               end) /\
    set_token net cfg tr =
      update_token net merged cfg
        (tr1 ++ [token_request (JStr (Configuration.id cfg)) cfg])%list /\
    (forall out tr',
       set_token net cfg tr = (Ok out, tr') ->
       exists j, token out = Some j /\
                 token_changed merged j = Ok (changed out)) /\
    (forall x, assoc "Description" full = Some x ->
               dict_getitem merged "Description" = Ok x).
Proof.
  intros Htok Hget Hnet Hacc Hdec Hnd.
  assert (Hidx : exists j, index_tokens j = Ok tokens).
  { rewrite get_tokens_eq in Htok. injection Htok as Htok _.
    apply rbind_Ok in Htok. destruct Htok as (j & _ & Hidx). eauto. }
  destruct Hidx as (j & Hidx).
  destruct (index_tokens_lookup _ _ _ _ Hidx Hget) as (entry & -> & Ha).
  set (merged :=
         fold_left (fun acc kv => dict_set acc (JStr (fst kv)) (snd kv))
           full (dict_copy entry)).
  assert (Hmerged : forall k, dict_get merged (JStr k) =
                              match assoc k full with
                              | Some x => Some x
                              | None => assoc k entry
                              end).
  { intros k. unfold merged. rewrite (dict_get_update full _ k Hnd).
    now rewrite dict_get_copy. }
  assert (Hset : set_token net cfg tr =
                 update_token net merged cfg
                   (tr1 ++ [token_request (JStr (Configuration.id cfg)) cfg])%list).
  { rewrite (set_token_eq net cfg tr tokens tr1 Htok), Hget.
    cbn [subscript]. rewrite Ha. cbv zeta.
    now rewrite Hnet, (exchange_accepted _ _ Hacc Hdec). }
  exists entry, merged. split; [reflexivity|]. split; [exact Hmerged|].
  split; [exact Hset|]. split.
  - intros out tr'. rewrite Hset. apply update_token_changed.
  - intros x Hx. unfold dict_getitem. now rewrite Hmerged, Hx.
Qed.

End Merge.

Lemma merge_before_update_witness :
  let index_entry :=
    JDict [("AccessorID", JStr "ID-1"); ("Local", JBool false);
           ("CreateIndex", JInt 29)] in
  let full := 
    [("AccessorID", JStr "ID-1"); ("Description", JStr "kept");
     ("Local", JBool false); ("SecretID", JStr "s3cr3t")] in
  let net :=
    scripted [ok_json (JList [index_entry]); ok_json (JDict full);
              ok_json (JDict full)] in
  exists merged,
    dict_get merged (JStr "Description") = Some (JStr "kept") /\
    dict_get merged (JStr "CreateIndex") = Some (JInt 29) /\
    fst (set_token net (sample_configuration "1.4.9") []) =
      Ok (mkOutput false UPDATE_OPERATION (Some (JDict full))) /\
    token_changed merged (JDict full) = Ok false.
Proof.
  intros index_entry full net.
  assert (Hnd : NoDup (map fst full)).
  { repeat constructor; simpl; intuition discriminate. }
  destruct (merge_before_update net (sample_configuration "1.4.9") []
              [(JStr "ID-1", index_entry)] _ index_entry
              (mkResponse 200 "" (Some (JDict full))) full
              eq_refl eq_refl eq_refl
              ltac:(accepted_status) eq_refl Hnd)
    as (entry & merged & Hentry & Hmerged & _ & Hchanged & _).
  injection Hentry as <-.
  destruct (Hchanged (mkOutput false UPDATE_OPERATION (Some (JDict full))) _
              eq_refl) as (j & Hj & Hc).
  injection Hj as <-.
  exists merged.
  split; [now rewrite Hmerged|]. split; [now rewrite Hmerged|].
  split; [reflexivity | exact Hc].
Defined.

Section KeyLookups.

Variable net : transport.

(** C10 (amended). In the [changed] expression Description and Local are
    read by direct key lookup, left to right, the chain of [or] stopping
    at the first difference.  With the PUT accepted and its body a
    dictionary: a view or body without 'Description' ends the update in a
    key error; with both Descriptions present and different the update
    returns [changed = true] and Local is never read; with them equal, a
    view or body without 'Local' ends it in a key error; and when both keys
    are present on both sides an outcome is returned whatever other keys
    are absent. *)
Theorem changed_reads_description_and_local
  view cfg tr accessor body resp d :
  dict_getitem view "AccessorID" = Ok accessor ->
  update_token_data cfg = Ok body ->
  net tr (update_request accessor body cfg) = Replied resp ->
  accepted resp ->
  decoded resp = Some (JDict d) ->
  let result := fst (update_token net view cfg tr) in
  let missing f := dict_get view (JStr f) = None \/ assoc f d = None in
  (missing "Description" -> result = Raise (KeyError "Description")) /\
  (forall d1 d2,
     dict_get view (JStr "Description") = Some d1 ->
     assoc "Description" d = Some d2 ->
     (py_ne d1 d2 = true ->
      result = Ok (mkOutput true UPDATE_OPERATION (Some (JDict d)))) /\
     (py_ne d1 d2 = false -> missing "Local" ->
      result = Raise (KeyError "Local")) /\
     (py_ne d1 d2 = false -> ~ missing "Local" ->
      exists c, result = Ok (mkOutput c UPDATE_OPERATION (Some (JDict d))))).
Proof.
  intros Ha Hbody Hnet Hacc Hdec result missing. unfold result, missing.
  rewrite update_token_eq, Ha, Hbody, Hnet, (exchange_accepted _ _ Hacc Hdec).
  cbn [fst rbind]. unfold token_changed, dict_getitem.
  cbn [subscript]. split.
  - intros [H|H].
    + now rewrite H.
    + rewrite H. now destruct (dict_get view (JStr "Description")).
  - intros d1 d2 H1 H2. rewrite H1, H2. cbn [rbind].
    split; [|split].
    + now intros ->.
    + intros -> [H|H].
      * now rewrite H.
      * rewrite H. now destruct (dict_get view (JStr "Local")).
    + intros -> Hlocal.
      destruct (dict_get view (JStr "Local")) as [l1|]; [|tauto].
      destruct (assoc "Local" d) as [l2|]; [|tauto].
      cbn [rbind]. destruct (py_ne l1 l2); [now eexists|].
      rewrite !json_get_dict. cbn [rbind].
      repeat match goal with
             | |- context [if ?b then _ else _] => destruct b
             end; now eexists.
Qed.

End KeyLookups.

Lemma changed_reads_description_and_local_witness :
  let view := [(JStr "AccessorID", JStr "ID-1"); (JStr "Description", JStr "")]
  in
  let d := [("Description", JStr ""); ("Local", JBool false)] in
  let net := scripted [ok_json (JDict d)] in
  fst (update_token net view (sample_configuration "1.4.9") [])
  = Raise (KeyError "Local").
Proof.
  intros view d net.
  destruct (changed_reads_description_and_local net view
              (sample_configuration "1.4.9") [] (JStr "ID-1") _
              (mkResponse 200 "" (Some (JDict d))) d
              eq_refl eq_refl eq_refl
              ltac:(accepted_status) eq_refl) as [_ H].
  destruct (H (JStr "") (JStr "") eq_refl eq_refl) as (_ & Hlocal & _).
  exact (Hlocal eq_refl (or_introl eq_refl)).
Defined.

(** C10, as first stated, fails: a document without 'Local' does not stop
    an update whose Descriptions differ. *)
Lemma description_change_hides_missing_local :
  ~ (forall net view cfg tr accessor body resp d,
       dict_getitem view "AccessorID" = Ok accessor ->
       update_token_data cfg = Ok body ->
       net tr (update_request accessor body cfg) = Replied resp ->
       accepted resp ->
       decoded resp = Some (JDict d) ->
       dict_get view (JStr "Description") = None \/
       assoc "Description" d = None \/
       dict_get view (JStr "Local") = None \/
       assoc "Local" d = None ->
       exists key,
         fst (update_token net view cfg tr) = Raise (KeyError key)).
Proof.
  intros claim.
  destruct (claim
              (scripted [ok_json (JDict [("Description", JStr "new")])])
              [(JStr "AccessorID", JStr "ID-1");
               (JStr "Description", JStr "old")]
              (sample_configuration "1.4.9") [] (JStr "ID-1") _
              (mkResponse 200 "" (Some (JDict [("Description", JStr "new")])))
              [("Description", JStr "new")]
              eq_refl eq_refl eq_refl
              ltac:(accepted_status) eq_refl
              (or_intror (or_intror (or_introl eq_refl))))
    as (key & Hkey).
  discriminate Hkey.
Qed.

(** * Further properties *)

(** ** Parsing a version text *)

Lemma split_length c s :
  List.length (split c s) = S (count_char c s).
Proof.
  induction s as [|c' r IH]; simpl; [reflexivity|].
  destruct (Ascii.eqb c' c); simpl; [now rewrite IH|].
  destruct (split c r) as [|h t]; simpl in *; [discriminate | exact IH].
Qed.

Lemma split_dotless c a :
  count_char c a = O -> split c a = [a].
Proof.
  induction a as [|c' r IH]; simpl; [reflexivity|].
  destruct (Ascii.eqb c' c); [discriminate|].
  intros H. now rewrite (IH H).
Qed.

Lemma split_app c a r :
  count_char c a = O ->
  split c (a ++ String c r) = a :: split c r.
Proof.
  induction a as [|c' a IH]; simpl.
  - now rewrite Ascii.eqb_refl.
  - destruct (Ascii.eqb c' c); [discriminate|].
    intros H. now rewrite (IH H).
Qed.

(** X1. [ConsulVersion(s)] raises IndexError exactly when [s] has fewer
    than two dots; with two or more it returns a version. *)
Theorem ConsulVersion_init_needs_two_dots s :
  (ConsulVersion_init s = Raise IndexError <->
   (count_char "."%char s < 2)%nat) /\
  ((2 <= count_char "."%char s)%nat <->
   exists v, ConsulVersion_init s = Ok v).
Proof.
  unfold ConsulVersion_init.
  pose proof (split_length "."%char s) as Hlen.
  destruct (split "."%char s) as [|a [|b [|c l]]]; simpl in Hlen.
  - discriminate.
  - split; split; intros H; try lia; try reflexivity.
    destruct H as (v & H). discriminate.
  - split; split; intros H; try lia; try reflexivity.
    destruct H as (v & H). discriminate.
  - split; split; intros H; try lia; try discriminate. eauto.
Qed.

(** X2. A text made of three dot-free components joined by dots parses to
    exactly these components, and anything after a third dot is ignored. *)
Theorem ConsulVersion_init_components a b c :
  count_char "."%char a = O ->
  count_char "."%char b = O ->
  count_char "."%char c = O ->
  ConsulVersion_init (a ++ "." ++ b ++ "." ++ c) = Ok (mkConsulVersion a b c)
  /\ forall extra,
       ConsulVersion_init (a ++ "." ++ b ++ "." ++ c ++ "." ++ extra)
       = Ok (mkConsulVersion a b c).
Proof.
  intros Ha Hb Hc. unfold ConsulVersion_init. split.
  - change (a ++ "." ++ b ++ "." ++ c)
      with (a ++ String "."%char (b ++ String "."%char c)).
    now rewrite (split_app _ _ _ Ha), (split_app _ _ _ Hb),
      (split_dotless _ _ Hc).
  - intros extra.
    change (a ++ "." ++ b ++ "." ++ c ++ "." ++ extra)
      with (a ++ String "."%char (b ++ String "."%char
                                    (c ++ String "."%char extra))).
    rewrite (split_app _ _ _ Ha), (split_app _ _ _ Hb),
      (split_app _ _ _ Hc).
    reflexivity.
Qed.

Lemma ConsulVersion_init_components_witness :
  ConsulVersion_init "1.15.2" = Ok (mkConsulVersion "1" "15" "2") /\
  ConsulVersion_init "1.15.2.4-dev" = Ok (mkConsulVersion "1" "15" "2").
Proof.
  destruct (ConsulVersion_init_components "1" "15" "2"
              eq_refl eq_refl eq_refl) as [H1 H2].
  split; [exact H1 | exact (H2 "4-dev")].
Defined.

(** ** The order on versions *)

(** X3. On versions whose concatenations read as integers, [>=] is
    reflexive, transitive and total, [<=] is [>=] with the operands
    exchanged, and both hold at once exactly when the two concatenations
    read as the same integer. *)
Theorem version_order_is_total_preorder u v w k n m :
  version_int u = Ok k -> version_int v = Ok n -> version_int w = Ok m ->
  version_ge v v = Ok true /\
  (version_ge u v = Ok true -> version_ge v w = Ok true ->
   version_ge u w = Ok true) /\
  (version_ge v w = Ok true \/ version_ge w v = Ok true) /\
  version_le v w = version_ge w v /\
  (version_ge v w = Ok true /\ version_le v w = Ok true <-> n = m).
Proof.
  intros Hu Hv Hw. unfold version_ge, version_le.
  rewrite Hu, Hv, Hw. simpl.
  assert (Hge : forall x y, Ok (x >=? y) = Ok true <-> y <= x).
  { intros x y. rewrite Z.geb_leb. split.
    - intros [= H]. now apply Z.leb_le.
    - intros H. f_equal. now apply Z.leb_le. }
  assert (Hle : forall x y, Ok (x <=? y) = Ok true <-> x <= y).
  { intros x y. split.
    - intros [= H]. now apply Z.leb_le.
    - intros H. f_equal. now apply Z.leb_le. }
  rewrite !Hge, !Hle. repeat split; try lia.
  now rewrite Z.geb_leb.
Qed.

Lemma version_order_is_total_preorder_witness :
  version_ge (mkConsulVersion "1" "10" "0") (mkConsulVersion "11" "0" "0")
    = Ok true /\
  version_le (mkConsulVersion "1" "10" "0") (mkConsulVersion "11" "0" "0")
    = Ok true.
Proof.
  destruct (version_order_is_total_preorder
              (mkConsulVersion "1" "9" "0") (mkConsulVersion "1" "10" "0")
              (mkConsulVersion "11" "0" "0") 190 1100 1100
              eq_refl eq_refl eq_refl) as (_ & _ & _ & _ & Hboth).
  now apply Hboth.
Defined.

Lemma digit_range c d : digit_of c = Some d -> 0 <= d <= 9.
Proof.
  unfold digit_of.
  destruct ((48 <=? nat_of_ascii c) && (nat_of_ascii c <=? 57))%nat eqn:H;
    [|discriminate].
  apply andb_prop in H. destruct H as [H1 H2].
  apply Nat.leb_le in H1. apply Nat.leb_le in H2.
  intros [= <-]. lia.
Qed.

Lemma decimal_shift s : forall acc,
  all_digits s = true ->
  decimal acc s = acc * 10 ^ Z.of_nat (String.length s) + decimal 0 s.
Proof.
  induction s as [|c r IH]; intros acc H.
  - simpl. lia.
  - cbn [all_digits decimal String.length] in *.
    destruct (digit_of c) as [d|]; [|discriminate].
    rewrite (IH (10 * acc + d) H), (IH (10 * 0 + d) H).
    rewrite Nat2Z.inj_succ, Z.pow_succ_r by lia. ring.
Qed.

Lemma decimal_bound s :
  all_digits s = true ->
  0 <= decimal 0 s < 10 ^ Z.of_nat (String.length s).
Proof.
  induction s as [|c r IH]; intros H.
  - simpl. lia.
  - cbn [all_digits decimal String.length] in *.
    destruct (digit_of c) as [d|] eqn:Hd; [|discriminate].
    rewrite (decimal_shift r (10 * 0 + d) H).
    rewrite Nat2Z.inj_succ, Z.pow_succ_r by lia.
    pose proof (digit_range _ _ Hd). specialize (IH H). nia.
Qed.

Lemma decimal_app s t : forall acc,
  all_digits s = true -> decimal acc (s ++ t) = decimal (decimal acc s) t.
Proof.
  induction s as [|c r IH]; intros acc H; simpl in *; [reflexivity|].
  destruct (digit_of c); [now apply IH | discriminate].
Qed.

Lemma all_digits_append s t :
  all_digits (s ++ t) = all_digits s && all_digits t.
Proof.
  induction s as [|c r IH]; simpl; [reflexivity|].
  destruct (digit_of c); [exact IH | reflexivity].
Qed.

(** The concatenation of three numeric components, as a number. *)
Lemma decimal_concat a b c :
  all_digits a = true -> all_digits b = true -> all_digits c = true ->
  decimal 0 (a ++ b ++ c) =
    (decimal 0 a * 10 ^ Z.of_nat (String.length b) + decimal 0 b)
    * 10 ^ Z.of_nat (String.length c) + decimal 0 c.
Proof.
  intros Ha Hb Hc.
  rewrite (decimal_app a (b ++ c) 0 Ha), (decimal_app b c _ Hb).
  now rewrite (decimal_shift c _ Hc), (decimal_shift b _ Hb).
Qed.

(** Comparing two three-digit numbers in mixed radix is comparing their
    digits in order. *)
Lemma lexicographic_concat A A' B B' C C' P Q :
  0 <= B < P -> 0 <= B' < P -> 0 <= C < Q -> 0 <= C' < Q ->
  ((A' * P + B') * Q + C' <=? (A * P + B) * Q + C) =
  (A' <? A) || (A =? A') && ((B' <? B) || (B =? B') && (C' <=? C)).
Proof.
  intros HB HB' HC HC'.
  assert (Hstep : forall X Y, X + 1 <= Y -> X * Q + C' < Y * Q + C) by
    (intros X Y H; nia).
  destruct (Z.ltb_spec A' A) as [HA|HA]; simpl.
  - apply Z.leb_le, Z.lt_le_incl, Hstep. nia.
  - destruct (Z.eqb_spec A A') as [->|HAe]; simpl.
    + destruct (Z.ltb_spec B' B) as [HBlt|HBge]; simpl.
      * apply Z.leb_le, Z.lt_le_incl, Hstep. lia.
      * destruct (Z.eqb_spec B B') as [->|HBe]; simpl.
        -- destruct (Z.leb_spec C' C);
             [apply Z.leb_le | apply Z.leb_gt]; lia.
        -- apply Z.leb_gt.
           assert (H : (A' * P + B) * Q + C < (A' * P + B') * Q + C') by
             (assert (A' * P + B + 1 <= A' * P + B') by lia; nia).
           exact H.
    + apply Z.leb_gt.
      assert (H1 : A * P + B + 1 <= A' * P + B') by nia.
      nia.
Qed.

(** X4. When the minor components of two numeric versions have the same
    number of digits, and so have their patch components, [>=] is the
    component-wise order: the gates compare as a reader expects against
    1.5.0 and 1.8.0 for every version with one-digit minor and patch. *)
Theorem version_ge_componentwise v w :
  major v <> EmptyString -> major w <> EmptyString ->
  all_digits (major v) = true -> all_digits (minor v) = true ->
  all_digits (patch v) = true ->
  all_digits (major w) = true -> all_digits (minor w) = true ->
  all_digits (patch w) = true ->
  String.length (minor v) = String.length (minor w) ->
  String.length (patch v) = String.length (patch w) ->
  version_ge v w = Ok (componentwise_ge v w).
Proof.
  intros Nv Nw Av Bv Cv Aw Bw Cw Lb Lc.
  rewrite (version_ge_total v w Nv Nw)
    by (rewrite !all_digits_append; now rewrite ?Av, ?Bv, ?Cv, ?Aw, ?Bw, ?Cw).
  rewrite !decimal_concat by assumption.
  unfold componentwise_ge. cbv zeta. rewrite Lb, Lc.
  pose proof (decimal_bound _ Av) as [Ha _].
  pose proof (decimal_bound _ Aw) as [Ha' _].
  pose proof (decimal_bound _ Bv) as Hb.
  pose proof (decimal_bound _ Bw) as Hb'.
  pose proof (decimal_bound _ Cv) as Hc.
  pose proof (decimal_bound _ Cw) as Hc'.
  rewrite Lb in Hb. rewrite Lc in Hc.
  f_equal. rewrite Z.geb_leb. now apply lexicographic_concat.
Qed.

Lemma version_ge_componentwise_witness :
  version_ge (mkConsulVersion "1" "4" "9") (mkConsulVersion "1" "5" "0")
  = Ok false.
Proof.
  exact (version_ge_componentwise
           (mkConsulVersion "1" "4" "9") (mkConsulVersion "1" "5" "0")
           ltac:(discriminate) ltac:(discriminate)
           eq_refl eq_refl eq_refl eq_refl eq_refl eq_refl eq_refl eq_refl).
Defined.

(** ** The requests of one invocation *)

Section Invocation.

Variable net : transport.

Lemma set_token_Raise cfg tr e tr1 :
  get_tokens net cfg tr = (Raise e, tr1) ->
  set_token net cfg tr = (Raise e, tr1).
Proof. intros H. unfold set_token, bind. now rewrite H. Qed.

Lemma remove_token_Raise cfg tr e tr1 :
  get_tokens net cfg tr = (Raise e, tr1) ->
  remove_token net cfg tr = (Raise e, tr1).
Proof. intros H. unfold remove_token, bind. now rewrite H. Qed.

Lemma get_tokens_lookup cfg tr tokens tr1 s e :
  get_tokens net cfg tr = (Ok tokens, tr1) ->
  dict_get tokens (JStr s) = Some e ->
  subscript e "AccessorID" = Ok (JStr s).
Proof.
  intros Htok Hget. rewrite get_tokens_eq in Htok.
  injection Htok as Htok _.
  apply rbind_Ok in Htok. destruct Htok as (j & _ & Hidx).
  destruct (index_tokens_lookup _ _ _ _ Hidx Hget) as (d & -> & Ha).
  simpl. now rewrite Ha.
Qed.

(** The requests of [set_token], after the listing. *)
Lemma set_token_shape cfg tr :
  let T := tokens_request cfg in
  let id := JStr (Configuration.id cfg) in
  exists new,
    snd (set_token net cfg tr) = (tr ++ T :: new)%list /\
    (new = [] \/ (exists body, new = [create_request body cfg]) \/
     new = [token_request id cfg] \/
     exists accessor body,
       new = [token_request id cfg; update_request accessor body cfg]).
Proof.
  intros T id.
  destruct (get_tokens net cfg tr) as [[tokens|e] tr1] eqn:Htok.
  - pose proof Htok as Htr. rewrite get_tokens_eq in Htr.
    injection Htr as _ <-.
    rewrite (set_token_eq net cfg tr tokens _ Htok).
    destruct (dict_get tokens (JStr (Configuration.id cfg))) as [entry|]
      eqn:Hget.
    + rewrite (get_tokens_lookup cfg tr tokens _ _ _ Htok Hget). cbv zeta.
      fold id. fold T.
      destruct (exchange _) as [rest|]; cbn [snd].
      * destruct (rbind (copy entry) _) as [view|]; cbn [snd].
        -- rewrite update_token_eq.
           destruct (dict_getitem view "AccessorID") as [a|]; cbn [snd].
           ++ destruct (update_token_data cfg) as [body|]; cbn [snd].
              ** exists [token_request id cfg; update_request a body cfg].
                 rewrite <- !app_assoc. split; [reflexivity|].
                 right. right. right. eauto.
              ** exists [token_request id cfg]. rewrite <- app_assoc. auto.
           ++ exists [token_request id cfg]. rewrite <- app_assoc. auto.
        -- exists [token_request id cfg]. rewrite <- app_assoc. auto.
      * exists [token_request id cfg]. rewrite <- app_assoc. auto.
    + rewrite create_token_eq. fold T.
      destruct (create_token_data cfg) as [body|]; cbn [snd].
      * exists [create_request body cfg]. rewrite <- app_assoc.
        split; [reflexivity|]. right. left. eauto.
      * exists []. auto.
  - rewrite (set_token_Raise cfg tr e tr1 Htok). cbn [snd].
    rewrite get_tokens_eq in Htok. injection Htok as _ <-.
    exists []. auto.
Qed.

(** The requests of [remove_token], after the listing. *)
Lemma remove_token_shape cfg tr :
  let T := tokens_request cfg in
  let id := JStr (Configuration.id cfg) in
  exists new,
    snd (remove_token net cfg tr) = (tr ++ T :: new)%list /\
    (new = [] \/ new = [delete_request id cfg]).
Proof.
  intros T id.
  destruct (get_tokens net cfg tr) as [[tokens|e] tr1] eqn:Htok.
  - pose proof Htok as Htr. rewrite get_tokens_eq in Htr.
    injection Htr as _ <-.
    rewrite (remove_token_eq net cfg tr tokens _ Htok).
    destruct (dict_get tokens (JStr (Configuration.id cfg))) as [entry|]
      eqn:Hget.
    + rewrite (get_tokens_lookup cfg tr tokens _ _ _ Htok Hget).
      cbn [snd]. fold id. fold T.
      exists [delete_request id cfg]. rewrite <- app_assoc. auto.
    + exists []. auto.
  - rewrite (remove_token_Raise cfg tr e tr1 Htok). cbn [snd].
    rewrite get_tokens_eq in Htok. injection Htok as _ <-.
    exists []. auto.
Qed.

Lemma main_shape p cfg0 tr :
  Configuration.init p = Ok cfg0 ->
  exists new,
    snd (main net true p tr) = (tr ++ new)%list /\ request_shapes p cfg0 new.
Proof.
  intros Hinit. unfold request_shapes. cbv zeta.
  destruct (Configuration_init_Ok _ _ Hinit)
    as (r & q & s & n & _ & _ & _ & _ & Hcfg0).
  destruct (get_consul_version net cfg0 tr) as [[v|e] tr0] eqn:Hv.
  - rewrite (main_eq net p cfg0 v tr tr0 Hinit Hv), report_trace.
    rewrite get_consul_version_eq in Hv. injection Hv as _ <-.
    destruct (String.eqb (Params.state p) PRESENT_STATE_VALUE).
    + destruct (set_token_shape (Configuration.set_version cfg0 v)
                  (tr ++ [version_request cfg0])) as (new & -> & Hnew).
      exists (version_request cfg0 :: tokens_request cfg0 :: new).
      rewrite <- app_assoc. split; [reflexivity|].
      assert (Hid : Configuration.id (Configuration.set_version cfg0 v)
                    = Params.id p) by now rewrite Hcfg0.
      rewrite Hid in Hnew.
      destruct Hnew as [->|[(body & ->)|[->|(a & body & ->)]]].
      * right. left. reflexivity.
      * right. right. right. left. split; [reflexivity|].
        exists body. reflexivity.
      * right. right. right. right. left. split; reflexivity.
      * right. right. right. right. right. split; [reflexivity|].
        exists a, body. reflexivity.
    + destruct (remove_token_shape (Configuration.set_version cfg0 v)
                  (tr ++ [version_request cfg0])) as (new & -> & Hnew).
      exists (version_request cfg0 :: tokens_request cfg0 :: new).
      rewrite <- app_assoc. split; [reflexivity|].
      assert (Hid : Configuration.id (Configuration.set_version cfg0 v)
                    = Params.id p) by now rewrite Hcfg0.
      rewrite Hid in Hnew.
      destruct Hnew as [->| ->].
      * right. left. reflexivity.
      * right. right. left. split; reflexivity.
  - exists [version_request cfg0]. split; [|now left].
    unfold main. cbn [negb]. rewrite Hinit, report_trace.
    unfold bind. rewrite Hv. cbn [snd].
    rewrite get_consul_version_eq in Hv. now injection Hv as _ <-.
Qed.

(** Whatever the parameters, [main] only adds requests; it adds none when
    the dependency is missing or the configuration is refused. *)
Lemma main_shape_any has_requests p tr :
  exists new,
    snd (main net has_requests p tr) = (tr ++ new)%list /\
    (new = [] \/
     exists cfg0, Configuration.init p = Ok cfg0 /\ request_shapes p cfg0 new).
Proof.
  destruct has_requests.
  - destruct (Configuration.init p) as [cfg0|e] eqn:Hinit.
    + destruct (main_shape p cfg0 tr Hinit) as (new & Hnew & Hshape).
      exists new. eauto.
    + exists []. rewrite app_nil_r. split; [|now left].
      unfold main. cbn [negb]. rewrite Hinit. now destruct e.
  - exists []. rewrite app_nil_r. split; [reflexivity | now left].
Qed.


(** X6. An invocation issues at most four requests, and every request
    but the last one is a GET: at most one request changes the agent's
    state, and nothing is sent after it. *)
Theorem main_mutates_at_most_once has_requests p tr :
  exists new,
    snd (main net has_requests p tr) = (tr ++ new)%list /\
    (List.length new <= 4)%nat /\
    forallb is_get (removelast new) = true.
Proof.
  destruct (main_shape_any has_requests p tr) as (new & Hnew & Hshape).
  exists new. split; [exact Hnew|].
  destruct Hshape as [->|(cfg0 & _ & Hshape)]; [split; [simpl; lia|reflexivity]|].
  unfold request_shapes in Hshape. cbv zeta in Hshape.
  destruct Hshape
    as [->|[->|[[_ ->]|[[_ (body & ->)]|[[_ ->]|[_ (a & body & ->)]]]]]];
    split; simpl; try lia; reflexivity.
Qed.

(** X7. Every request of an invocation goes to the scheme, host and port
    of the parameters, with their certificate setting, and carries the
    header X-Consul-Token with the management token when one is given and
    no header otherwise. *)
Theorem main_requests_addressed has_requests p tr :
  exists new,
    snd (main net has_requests p tr) = (tr ++ new)%list /\
    Forall (addressed p) new.
Proof.
  destruct (main_shape_any has_requests p tr) as (new & Hnew & Hshape).
  exists new. split; [exact Hnew|].
  destruct Hshape as [->|(cfg0 & Hinit & Hshape)]; [constructor|].
  destruct (Configuration_init_Ok _ _ Hinit)
    as (r & q & s & n & _ & _ & _ & _ & ->).
  unfold request_shapes in Hshape. cbv zeta in Hshape.
  assert (Hadd : forall m path body,
            addressed p
              (mkRequest m
                 (mkUrl (Params.scheme p) (Params.host p) (Params.port p)
                    path)
                 (match Params.mgmt_token p with
                  | Some t => [("X-Consul-Token", t)]
                  | None => []
                  end) body (Params.validate_certs p))).
  { intros. repeat split. }
  destruct Hshape
    as [->|[->|[[_ ->]|[[_ (body & ->)]|[[_ ->]|[_ (a & body & ->)]]]]]];
    repeat constructor; apply Hadd.
Qed.

End Invocation.


(** ** Where reply errors come from *)

Create HintDb quiet.

Lemma quiet_Ok {A} (a : A) : quiet (Ok a).
Proof. intros e H. discriminate. Qed.

Lemma quiet_Raise {A} (e : exn) :
  from_reply e = false -> quiet (@Raise A e).
Proof. intros He e' [= <-]. exact He. Qed.

Lemma quiet_rbind {A B} (r : result A) (k : A -> result B) :
  quiet r -> (forall a, quiet (k a)) -> quiet (rbind r k).
Proof.
  intros Hr Hk. destruct r as [a|e]; simpl; [apply Hk|].
  intros e' [= <-]. now apply Hr.
Qed.

Lemma quiet_foldM {A B} (f : A -> B -> result A) l :
  (forall a b, quiet (f a b)) -> forall a, quiet (foldM f a l).
Proof.
  intros Hf. induction l as [|b l IH]; intros a; simpl.
  - apply quiet_Ok.
  - apply quiet_rbind; [apply Hf | exact IH].
Qed.

Lemma quiet_mapM {A B} (f : A -> result B) l :
  (forall a, quiet (f a)) -> quiet (mapM f l).
Proof.
  intros Hf. induction l as [|a l IH]; simpl.
  - apply quiet_Ok.
  - apply quiet_rbind; [apply Hf|]. intros b.
    apply quiet_rbind; [exact IH|]. intros bs. apply quiet_Ok.
Qed.

#[local] Hint Resolve quiet_Ok : quiet.
#[local] Hint Extern 1 (quiet (Raise _)) =>
  (apply quiet_Raise; reflexivity) : quiet.

(** One step of taking a computation apart. *)
Ltac quiet_step :=
  first
    [ solve [auto with quiet]
    | apply quiet_rbind; [|intros ?]
    | match goal with
      | |- quiet (match ?x with _ => _ end) => destruct x
      end
    | progress cbv zeta ].

Lemma quiet_subscript x key : quiet (subscript x key).
Proof. unfold subscript. repeat quiet_step. Qed.

Lemma quiet_json_get x key : quiet (json_get x key).
Proof. unfold json_get. repeat quiet_step. Qed.

Lemma quiet_py_iter x : quiet (py_iter x).
Proof. unfold py_iter. repeat quiet_step. Qed.

Lemma quiet_dict_getitem d key : quiet (dict_getitem d key).
Proof. unfold dict_getitem. repeat quiet_step. Qed.

Lemma quiet_dict_setitem d k v : quiet (dict_setitem d k v).
Proof. unfold dict_setitem. repeat quiet_step. Qed.

Lemma quiet_response_json resp : quiet (response_json resp).
Proof. unfold response_json. repeat quiet_step. Qed.

Lemma quiet_copy x : quiet (copy x).
Proof. unfold copy. repeat quiet_step. Qed.

Lemma quiet_py_int s : quiet (py_int s).
Proof. unfold py_int. cbv zeta. repeat quiet_step. Qed.

Lemma quiet_ConsulVersion_init s : quiet (ConsulVersion_init s).
Proof. unfold ConsulVersion_init. repeat quiet_step. Qed.

#[local] Hint Resolve quiet_subscript quiet_json_get quiet_py_iter
  quiet_dict_getitem quiet_dict_setitem quiet_response_json quiet_copy
  quiet_py_int quiet_ConsulVersion_init : quiet.

Lemma quiet_version_ge v w : quiet (version_ge v w).
Proof. unfold version_ge, version_int. repeat quiet_step. Qed.

Lemma quiet_get_version cfg : quiet (Configuration.get_version cfg).
Proof. unfold Configuration.get_version. repeat quiet_step. Qed.

Lemma quiet_update_pair e : quiet (update_pair e).
Proof.
  unfold update_pair.
  destruct (py_iter e) as [[|k [|v [|x l]]]|]; auto with quiet.
Qed.

#[local] Hint Resolve quiet_version_ge quiet_get_version quiet_update_pair
  : quiet.

Lemma quiet_index_tokens j : quiet (index_tokens j).
Proof.
  unfold index_tokens. apply quiet_rbind; [auto with quiet|]. intros items.
  apply quiet_foldM. intros acc token. unfold index_step.
  repeat quiet_step.
Qed.

Lemma quiet_dict_update d other : quiet (dict_update d other).
Proof.
  assert (Hseq : quiet
            (rbind (py_iter other)
               (fun items =>
                  foldM (fun acc e =>
                           rbind (update_pair e)
                             (fun kv => dict_setitem acc (fst kv) (snd kv)))
                    d items))).
  { apply quiet_rbind; [auto with quiet|]. intros items.
    apply quiet_foldM. intros acc e. repeat quiet_step. }
  unfold dict_update. destruct other; auto with quiet.
Qed.

Lemma quiet_create_token_data cfg : quiet (create_token_data cfg).
Proof. unfold create_token_data. repeat quiet_step. Qed.

Lemma quiet_update_token_data cfg : quiet (update_token_data cfg).
Proof. unfold update_token_data. repeat quiet_step. Qed.

Lemma quiet_token_changed view j : quiet (token_changed view j).
Proof. unfold token_changed. repeat quiet_step. Qed.

Lemma quiet_Configuration_init p : quiet (Configuration.init p).
Proof.
  unfold Configuration.init.
  apply quiet_rbind;
    [apply quiet_mapM; intros x; unfold RoleLink.init; repeat quiet_step|].
  intros r. apply quiet_rbind;
    [apply quiet_mapM; intros x; unfold PolicyLink.init; repeat quiet_step|].
  intros q. apply quiet_rbind;
    [apply quiet_mapM; intros x; unfold ServiceIdentity.init;
     repeat quiet_step|].
  intros s. apply quiet_rbind;
    [apply quiet_mapM; intros x; unfold NodeIdentity.init;
     repeat quiet_step|].
  intros n. apply quiet_Ok.
Qed.

#[local] Hint Resolve quiet_index_tokens quiet_dict_update
  quiet_create_token_data quiet_update_token_data quiet_token_changed
  : quiet.

Section Faithful.

Variable net : transport.

Lemma last_reply_none tr rep : ~ last_reply net tr tr rep.
Proof.
  intros (tr0 & q & Heq & Hlen & _).
  apply (f_equal (@List.length request)) in Heq.
  rewrite length_app in Heq. simpl in Heq. lia.
Qed.

Lemma last_reply_one tr q rep :
  last_reply net tr (tr ++ [q]) rep <-> net tr q = rep.
Proof.
  split.
  - intros (tr0 & q0 & Heq & _ & Hrep).
    apply app_inj_tail in Heq. destruct Heq as [-> ->]. exact Hrep.
  - intros H. exists tr, q. auto.
Qed.

(** Past a first stretch of requests, the last reply is that of the
    second stretch, if it has any. *)
Lemma last_reply_later tr new1 new2 rep :
  new2 <> [] ->
  (last_reply net tr ((tr ++ new1) ++ new2) rep <->
   last_reply net (tr ++ new1) ((tr ++ new1) ++ new2) rep).
Proof.
  intros Hne. split; intros (tr0 & q & Heq & Hlen & Hrep);
    exists tr0, q; (split; [exact Heq|]); (split; [|exact Hrep]).
  - destruct (exists_last Hne) as (l & a & ->).
    rewrite app_assoc in Heq. apply app_inj_tail in Heq.
    destruct Heq as [<- _]. rewrite !length_app. lia.
  - rewrite length_app in Hlen. lia.
Qed.

Lemma faithful_lift {A} (r : result A) : quiet r -> faithful net (lift r).
Proof.
  intros Hq tr r' tr' [= <- <-]. split; [exists []; now rewrite app_nil_r|].
  intros e He. split.
  - intros ->. rewrite (Hq e eq_refl) in He. discriminate.
  - intros (rep & Hlast & _). now apply last_reply_none in Hlast.
Qed.

Lemma faithful_ret {A} (a : A) : faithful net (ret a).
Proof. apply (faithful_lift (Ok a)), quiet_Ok. Qed.

Lemma faithful_bind {A B} (m : M A) (k : A -> M B) :
  faithful net m -> (forall a, faithful net (k a)) ->
  faithful net (bind m k).
Proof.
  intros Hm Hk tr r tr'. unfold bind.
  destruct (m tr) as [[a|e0] tr1] eqn:Hmtr.
  - intros Hka.
    destruct (Hm _ _ _ Hmtr) as [(new1 & ->) Hm'].
    destruct (Hk a _ _ _ Hka) as [(new2 & ->) Hk'].
    split; [exists (new1 ++ new2)%list; now rewrite app_assoc|].
    intros e He. rewrite (Hk' e He).
    destruct new2 as [|q2 l2].
    + rewrite app_nil_r. split.
      * intros (rep & Hlast & _). now apply last_reply_none in Hlast.
      * intros (rep & Hlast & Hrep).
        assert (Habs : @Ok A a = Raise e) by (apply (Hm' e He); eauto).
        discriminate.
    + split; intros (rep & Hlast & Hrep); exists rep; (split; [|exact Hrep]);
        now apply (last_reply_later tr new1 (q2 :: l2)).
  - intros [= <- <-]. destruct (Hm _ _ _ Hmtr) as [Hext Hm'].
    split; [exact Hext|]. intros e He. rewrite <- (Hm' e He).
    split; intros [= ->]; reflexivity.
Qed.

(** Sending a request and checking the status of the response, as every
    operation does. *)
Lemma faithful_send {A} (q : request) (k : response -> M A) :
  (forall resp, faithful net (k resp)) ->
  faithful net
    (bind (send net q)
       (fun resp =>
          bind (lift (handle_consul_response_error resp))
            (fun _ => k resp))).
Proof.
  intros Hk tr r tr'. unfold bind at 1. unfold send.
  destruct (net tr q) as [resp|msg|msg] eqn:Hnet.
  - unfold bind, lift.
    destruct (handle_consul_response_error resp) as [u|e0] eqn:Hh.
    + intros Hka.
      destruct (Hk resp _ _ _ Hka) as [(new2 & ->) Hk'].
      split; [exists (q :: new2); now rewrite <- app_assoc|].
      intros e He. rewrite (Hk' e He).
      destruct new2 as [|q2 l2].
      * rewrite app_nil_r. split.
        -- intros (rep & Hlast & _). now apply last_reply_none in Hlast.
        -- intros (rep & Hlast & Hrep). apply last_reply_one in Hlast.
           rewrite Hnet in Hlast. subst rep. simpl in Hrep.
           rewrite Hh in Hrep. discriminate.
      * split; intros (rep & Hlast & Hrep); exists rep;
          (split; [|exact Hrep]);
          now apply (last_reply_later tr [q] (q2 :: l2)).
    + intros [= <- <-]. split; [now exists [q]|].
      intros e He. split.
      * intros [= ->]. exists (Replied resp). split.
        -- now apply last_reply_one.
        -- simpl. now rewrite Hh.
      * intros (rep & Hlast & Hrep). apply last_reply_one in Hlast.
        rewrite Hnet in Hlast. subst rep. simpl in Hrep.
        rewrite Hh in Hrep. congruence.
  - intros [= <- <-]. split; [now exists [q]|].
    intros e He. split.
    + intros [= <-]. exists (Unreachable msg). split; [|reflexivity].
      now apply last_reply_one.
    + intros (rep & Hlast & Hrep). apply last_reply_one in Hlast.
      rewrite Hnet in Hlast. subst rep. simpl in Hrep. congruence.
  - intros [= <- <-]. split; [now exists [q]|].
    intros e He. split.
    + intros [= <-]. exists (Broken msg). split; [|reflexivity].
      now apply last_reply_one.
    + intros (rep & Hlast & Hrep). apply last_reply_one in Hlast.
      rewrite Hnet in Hlast. subst rep. simpl in Hrep. congruence.
Qed.

(** One step of taking an operation apart. *)
Ltac faithful_step :=
  first
    [ apply faithful_send; intros ?
    | apply faithful_ret
    | apply faithful_lift; solve [auto with quiet]
    | apply faithful_bind; [|intros ?]
    | match goal with
      | |- faithful _ (match ?x with _ => _ end) => destruct x
      end
    | progress cbv zeta ].

Lemma faithful_get_tokens cfg : faithful net (get_tokens net cfg).
Proof. unfold get_tokens. repeat faithful_step. Qed.

Lemma faithful_get_token id cfg : faithful net (get_token net id cfg).
Proof. unfold get_token. repeat faithful_step. Qed.

Lemma faithful_get_consul_version cfg :
  faithful net (get_consul_version net cfg).
Proof. unfold get_consul_version. repeat faithful_step. Qed.

Lemma faithful_create_token cfg : faithful net (create_token net cfg).
Proof. unfold create_token. repeat faithful_step. Qed.

Lemma faithful_update_token view cfg :
  faithful net (update_token net view cfg).
Proof. unfold update_token. repeat faithful_step. Qed.

Lemma faithful_remove_token cfg : faithful net (remove_token net cfg).
Proof.
  unfold remove_token.
  apply faithful_bind; [apply faithful_get_tokens|]. intros tokens.
  repeat faithful_step.
Qed.

Lemma faithful_set_token cfg : faithful net (set_token net cfg).
Proof.
  unfold set_token.
  apply faithful_bind; [apply faithful_get_tokens|]. intros tokens.
  destruct (dict_get tokens _); [|apply faithful_create_token].
  apply faithful_bind; [apply faithful_lift; auto with quiet|]. intros id.
  apply faithful_bind; [apply faithful_get_token|]. intros rest.
  apply faithful_bind; [apply faithful_lift; auto with quiet|]. intros t0.
  apply faithful_bind; [apply faithful_lift; auto with quiet|]. intros t1.
  apply faithful_update_token.
Qed.

(** The reply errors of an invocation: what [main] makes of them, and what
    the last request has to do with them. *)
Lemma main_reply_error p tr e :
  from_reply e = true ->
  (fst (main net true p tr) = reported p e <->
   exists rep,
     last_reply net tr (snd (main net true p tr)) rep /\
     reply_error rep = Some e).
Proof.
  intros He. unfold main. cbn [negb].
  destruct (Configuration.init p) as [cfg0|e0] eqn:Hinit.
  - destruct (Configuration_init_Ok _ _ Hinit)
      as (r & q & s & n & _ & _ & _ & _ & Hcfg0).
    set (run :=
           bind (get_consul_version net cfg0)
             (fun version =>
                let configuration :=
                  Configuration.set_version cfg0 version in
                if String.eqb (Configuration.state configuration)
                     PRESENT_STATE_VALUE
                then set_token net configuration
                else remove_token net configuration)).
    assert (Hrun : faithful net run).
    { apply faithful_bind; [apply faithful_get_consul_version|].
      intros v. cbv zeta.
      destruct (String.eqb _ _);
        [apply faithful_set_token | apply faithful_remove_token]. }
    destruct (run tr) as [res tr'] eqn:Hres.
    destruct (Hrun _ _ _ Hres) as [_ Hiff].
    rewrite report_trace. cbn [snd]. rewrite <- (Hiff e He).
    rewrite Hcfg0. destruct res as [out|e1].
    + split; intros H; [destruct e; discriminate H | discriminate H].
    + split.
      * intros H. destruct e, e1; try discriminate He; cbn in H; congruence.
      * intros [= ->]. now destruct e.
  - assert (Hq : from_reply e0 = false)
      by (apply (quiet_Configuration_init p), Hinit).
    assert (Hsnd : snd (match e0 with
                        | ValueError err =>
                            (fail_json (ConfigurationError err), tr)
                        | _ => (uncaught e0, tr)
                        end) = tr) by now destruct e0.
    rewrite Hsnd. split.
    + intros H. destruct e, e0; try discriminate He; try discriminate Hq;
        discriminate H.
    + intros (rep & Hlast & _). now apply last_reply_none in Hlast.
Qed.

(** X8. An invocation ends in [fail_json] with "Could not connect",
    naming the host and port of the parameters, exactly when the last
    request it sent met a connection error; the message is that error's. *)
Theorem main_could_not_connect p tr msg :
  fst (main net true p tr)
    = fail_json (CouldNotConnect (Params.host p) (Params.port p) msg) <->
  last_reply net tr (snd (main net true p tr)) (Unreachable msg).
Proof.
  pose proof (main_reply_error p tr (ConnectionError msg) eq_refl) as H.
  cbn [reported] in H. split.
  - intros Hmain. apply H in Hmain.
    destruct Hmain as (rep & Hlast & Hrep).
    destruct rep as [resp|m|m]; simpl in Hrep.
    + unfold handle_consul_response_error in Hrep.
      destruct (_ && _); discriminate.
    + now injection Hrep as ->.
    + discriminate.
  - intros Hlast. apply H. exists (Unreachable msg). now split.
Qed.

(** X9. An invocation ends in an uncaught RequestError exactly when the
    last request it sent was answered with a status in [400, 600); the
    error carries that status and the content of the response. *)
Theorem main_request_error p tr status body :
  fst (main net true p tr) = uncaught (RequestError status body) <->
  exists resp,
    last_reply net tr (snd (main net true p tr)) (Replied resp) /\
    400 <= status_code resp < 600 /\
    status = status_code resp /\ body = content resp.
Proof.
  pose proof (main_reply_error p tr (RequestError status body) eq_refl) as H.
  cbn [reported] in H. split.
  - intros Hmain. apply H in Hmain.
    destruct Hmain as (rep & Hlast & Hrep).
    destruct rep as [resp|m|m]; simpl in Hrep; try discriminate.
    exists resp. split; [exact Hlast|].
    unfold handle_consul_response_error in Hrep.
    destruct (400 <=? status_code resp) eqn:H1;
      destruct (status_code resp <? 600) eqn:H2; try discriminate.
    injection Hrep as <- <-.
    apply Z.leb_le in H1. apply Z.ltb_lt in H2. auto.
  - intros (resp & Hlast & Hrange & -> & ->).
    apply H. exists (Replied resp). split; [exact Hlast|].
    simpl. unfold handle_consul_response_error.
    destruct Hrange as [H1 H2].
    apply Z.leb_le in H1. apply Z.ltb_lt in H2. now rewrite H1, H2.
Qed.

End Faithful.

Lemma main_could_not_connect_witness :
  fst (main (scripted [ok_json (sample_self "1.4.9"); Unreachable "refused"])
         true (sample_params PRESENT_STATE_VALUE) [])
  = fail_json (CouldNotConnect "localhost" 8500 "refused").
Proof.
  apply (proj2 (main_could_not_connect
                  (scripted [ok_json (sample_self "1.4.9");
                             Unreachable "refused"])
                  (sample_params PRESENT_STATE_VALUE) [] "refused")).
  exists [version_request (sample_configuration0 PRESENT_STATE_VALUE)],
    (tokens_request (sample_configuration0 PRESENT_STATE_VALUE)).
  repeat split. simpl. lia.
Defined.

Lemma main_request_error_witness :
  fst (main (scripted [ok_json (sample_self "1.4.9");
                       Replied (mkResponse 403 "ACL not found" None)])
         true (sample_params PRESENT_STATE_VALUE) [])
  = uncaught (RequestError 403 "ACL not found").
Proof.
  apply (proj2 (main_request_error
                  (scripted [ok_json (sample_self "1.4.9");
                             Replied (mkResponse 403 "ACL not found" None)])
                  (sample_params PRESENT_STATE_VALUE) [] 403
                  "ACL not found")).
  exists (mkResponse 403 "ACL not found" None). split.
  - exists [version_request (sample_configuration0 PRESENT_STATE_VALUE)],
      (tokens_request (sample_configuration0 PRESENT_STATE_VALUE)).
    repeat split. simpl. lia.
  - simpl. repeat split; lia.
Defined.

(** ** What the configuration accepts *)

(** Building a list of links stops at the first element that is no
    dictionary, with the attribute error of its missing [get]. *)
Lemma mapM_links {A} (init : json -> result A) :
  (forall d, exists p, init (JDict d) = Ok p) ->
  (forall x, is_dict x = false -> init x = Raise (AttributeError "get")) ->
  forall l,
    if forallb is_dict l
    then exists ps, mapM init l = Ok ps
    else mapM init l = Raise (AttributeError "get").
Proof.
  intros Hdict Hother. induction l as [|x l IH]; simpl.
  - eauto.
  - destruct (is_dict x) eqn:Hx; simpl.
    + destruct x as [| | | | |d]; try discriminate.
      destruct (Hdict d) as (p & ->). simpl.
      destruct (forallb is_dict l).
      * destruct IH as (ps & ->). simpl. eauto.
      * now rewrite IH.
    + now rewrite (Hother x Hx).
Qed.

Lemma RoleLink_init_other x :
  is_dict x = false -> RoleLink.init x = Raise (AttributeError "get").
Proof. destruct x; try discriminate; reflexivity. Qed.

Lemma PolicyLink_init_other x :
  is_dict x = false -> PolicyLink.init x = Raise (AttributeError "get").
Proof. destruct x; try discriminate; reflexivity. Qed.

(** X10. [Configuration] is built exactly when every role and policy
    element is a dictionary and every service and node identity is a
    dictionary with a ['name'] key; nothing else about the elements is
    checked. *)
Theorem Configuration_init_accepts p :
  (exists c, Configuration.init p = Ok c) <->
  forallb is_dict (Params.roles p) && forallb is_dict (Params.policies p)
  && forallb names_identity (Params.service_identities p)
  && forallb names_identity (Params.node_identities p) = true.
Proof.
  pose proof (mapM_links RoleLink.init RoleLink_init_dict
                RoleLink_init_other (Params.roles p)) as Hr.
  pose proof (mapM_links PolicyLink.init PolicyLink_init_dict
                PolicyLink_init_other (Params.policies p)) as Hp.
  pose proof (mapM_identities ServiceIdentity.init _
                ServiceIdentity_init_valid ServiceIdentity_init_invalid
                (Params.service_identities p)) as Hs.
  pose proof (mapM_identities NodeIdentity.init _
                NodeIdentity_init_valid NodeIdentity_init_invalid
                (Params.node_identities p)) as Hn.
  unfold Configuration.init.
  destruct (forallb is_dict (Params.roles p)).
  - destruct Hr as (r & ->). simpl.
    destruct (forallb is_dict (Params.policies p)).
    + destruct Hp as (q & ->). simpl.
      destruct (forallb names_identity (Params.service_identities p)).
      * destruct Hs as (s & ->). simpl.
        destruct (forallb names_identity (Params.node_identities p)).
        -- destruct Hn as (n & ->). simpl. split; eauto.
        -- rewrite Hn. simpl. split; [intros (c & H)|]; discriminate.
      * rewrite Hs. simpl. split; [intros (c & H)|]; discriminate.
    + rewrite Hp. simpl. split; [intros (c & H)|]; discriminate.
  - rewrite Hr. simpl. split; [intros (c & H)|]; discriminate.
Qed.

Lemma mapM_map {A} (init : json -> result A) (f : A -> json)
  (g : json -> json) :
  (forall x a, init x = Ok a -> f a = g x) ->
  forall l ps, mapM init l = Ok ps -> map f ps = map g l.
Proof.
  intros Hfg. induction l as [|x l IH]; intros ps; simpl.
  - now intros [= <-].
  - intros H. apply rbind_Ok in H. destruct H as (a & Ha & H).
    apply rbind_Ok in H. destruct H as (ps' & Hps & H).
    injection H as <-. simpl. now rewrite (Hfg _ _ Ha), (IH _ Hps).
Qed.

(** X12. Of a service identity only 'name' and 'datacenters' reach the
    wire, as ServiceName and Datacenters, and of a node identity only
    'name' and 'datacenter', as NodeName and Datacenter; a scope the
    caller left out is sent as null and any other key is dropped. *)
Theorem identities_on_the_wire p c :
  Configuration.init p = Ok c ->
  map ServiceIdentity.to_dict (Configuration.service_identities c)
    = map service_wire (Params.service_identities p) /\
  map NodeIdentity.to_dict (Configuration.node_identities c)
    = map node_wire (Params.node_identities p).
Proof.
  intros Hinit.
  destruct (Configuration_init_Ok _ _ Hinit)
    as (r & q & s & n & _ & _ & Hs & Hn & ->).
  simpl. split.
  - apply (mapM_map ServiceIdentity.init); [|exact Hs].
    intros x a. unfold ServiceIdentity.init, service_wire, field_or_null.
    destruct x as [| | | | |d]; try discriminate.
    destruct (assoc "name" d); [|discriminate].
    now intros [= <-].
  - apply (mapM_map NodeIdentity.init); [|exact Hn].
    intros x a. unfold NodeIdentity.init, node_wire, field_or_null.
    destruct x as [| | | | |d]; try discriminate.
    destruct (assoc "name" d); [|discriminate].
    now intros [= <-].
Qed.

Lemma identities_on_the_wire_witness :
  let p :=
    Params.mk None "localhost" 8500 "http" true "ID-1" "" [] []
      [JDict [("name", JStr "web"); ("comment", JStr "front")]]
      [JDict [("datacenter", JStr "dc2"); ("name", JStr "node-1")]]
      false None PRESENT_STATE_VALUE in
  exists c,
    Configuration.init p = Ok c /\
    map ServiceIdentity.to_dict (Configuration.service_identities c)
      = [JDict [("ServiceName", JStr "web"); ("Datacenters", JNull)]] /\
    map NodeIdentity.to_dict (Configuration.node_identities c)
      = [JDict [("NodeName", JStr "node-1"); ("Datacenter", JStr "dc2")]].
Proof.
  intros p. eexists. split; [reflexivity|].
  exact (identities_on_the_wire p _ eq_refl).
Defined.

(** ** The updating request *)

Section UpdateRequest.

Variable net : transport.

(** X13. On the update path the PUT follows the single-token fetch and
    is addressed to the AccessorID of the full record, or to the id when
    the full record has none; its body holds Description, Policies, Roles,
    Local and the gated identity fields, and neither AccessorID nor
    SecretID: the secret seed is never sent for an existing token. *)
Theorem update_request_target
  cfg v n tr tokens tr1 index_entry resp full :
  Configuration.version cfg = Some v ->
  version_int v = Ok n ->
  get_tokens net cfg tr = (Ok tokens, tr1) ->
  dict_get tokens (JStr (Configuration.id cfg)) = Some index_entry ->
  net tr1 (token_request (JStr (Configuration.id cfg)) cfg) = Replied resp ->
  accepted resp ->
  decoded resp = Some (JDict full) ->
  NoDup (map fst full) ->
  let accessor :=
    match assoc "AccessorID" full with
    | Some a => a
    | None => JStr (Configuration.id cfg)
    end in
  let body := JDict (update_fields cfg ++ gated_fields cfg n)%list in
  snd (set_token net cfg tr) =
    (tr1 ++ [token_request (JStr (Configuration.id cfg)) cfg;
             update_request accessor body cfg])%list /\
  has_key body "AccessorID" = false /\
  has_key body "SecretID" = false.
Proof.
  intros Hv Hn Htok Hget Hnet Hacc Hdec Hnd accessor body.
  assert (Hidx : exists j, index_tokens j = Ok tokens).
  { pose proof Htok as H. rewrite get_tokens_eq in H. injection H as H _.
    apply rbind_Ok in H. destruct H as (j & _ & Hidx). eauto. }
  destruct Hidx as (j & Hidx).
  destruct (index_tokens_lookup _ _ _ _ Hidx Hget) as (entry & -> & Ha).
  split.
  - rewrite (set_token_eq net cfg tr tokens tr1 Htok), Hget.
    cbn [subscript]. rewrite Ha. cbv zeta.
    rewrite Hnet, (exchange_accepted _ _ Hacc Hdec).
    cbn [copy dict_update rbind].
    rewrite update_token_eq. unfold dict_getitem.
    rewrite (dict_get_update full _ "AccessorID" Hnd), dict_get_copy, Ha.
    fold accessor.
    assert (Hview : match assoc "AccessorID" full with
                    | Some x => Some x
                    | None => Some (JStr (Configuration.id cfg))
                    end = Some accessor).
    { unfold accessor. now destruct (assoc "AccessorID" full). }
    rewrite Hview, (update_token_data_eq cfg v Hv), Hn.
    cbn [rbind snd]. fold body. now rewrite <- app_assoc.
  - unfold body, gated_fields, update_fields, has_key.
    destruct (n >=? 150), (n >=? 180); split; reflexivity.
Qed.

End UpdateRequest.

Lemma update_request_target_witness :
  let index_entry := sample_record (JStr "ID-1") "listed" in
  let full :=
    [("AccessorID", JStr "ID-1"); ("Description", JStr "full");
     ("Local", JBool false)] in
  let cfg := sample_configuration "1.5.0" in
  let net :=
    scripted [ok_json (JList [index_entry]); ok_json (JDict full);
              ok_json (JDict full)] in
  snd (set_token net cfg []) =
    [tokens_request cfg; token_request (JStr "ID-1") cfg;
     update_request (JStr "ID-1")
       (JDict (update_fields cfg ++ gated_fields cfg 150)%list) cfg].
Proof.
  intros index_entry full cfg net.
  assert (Hnd : NoDup (map fst full)).
  { repeat constructor; simpl; intuition discriminate. }
  exact (proj1 (update_request_target net cfg
                  (mkConsulVersion "1" "5" "0") 150 []
                  [(JStr "ID-1", index_entry)] [tokens_request cfg]
                  index_entry (mkResponse 200 "" (Some (JDict full))) full
                  eq_refl eq_refl eq_refl eq_refl eq_refl
                  ltac:(accepted_status) eq_refl Hnd)).
Defined.

(** ** A version that does not read as a number *)

Section UnreadableVersion.

Variable net : transport.

(** X14. When the concatenation of the version's components is not an
    integer literal (as for "1.8.0+ent"), creating and updating raise the
    ValueError of [int] before anything is sent; removing does not look
    at the version at all. *)
Theorem unreadable_version_blocks_put cfg v e tr :
  Configuration.version cfg = Some v ->
  version_int v = Raise e ->
  e = ValueError "invalid literal for int() with base 10" /\
  create_token net cfg tr = (Raise e, tr) /\
  (forall view accessor,
     dict_getitem view "AccessorID" = Ok accessor ->
     update_token net view cfg tr = (Raise e, tr)) /\
  (forall w,
     remove_token net (Configuration.set_version cfg w) tr
     = remove_token net cfg tr).
Proof.
  intros Hv He. split; [|split; [|split]].
  - unfold version_int, py_int in He. cbv zeta in He.
    destruct (match lstrip _ with
              | EmptyString => _
              | String _ _ => _
              end); congruence.
  - rewrite create_token_eq, (create_token_data_eq cfg v Hv), He.
    reflexivity.
  - intros view accessor Ha.
    rewrite update_token_eq, Ha, (update_token_data_eq cfg v Hv), He.
    reflexivity.
  - intros w. reflexivity.
Qed.

End UnreadableVersion.

Lemma unreadable_version_blocks_put_witness :
  let cfg := sample_configuration "1.8.0+ent" in
  create_token (scripted []) cfg []
  = (Raise (ValueError "invalid literal for int() with base 10"), []).
Proof.
  intros cfg.
  destruct (unreadable_version_blocks_put (scripted []) cfg
              (mkConsulVersion "1" "8" "0+ent")
              (ValueError "invalid literal for int() with base 10") []
              eq_refl eq_refl) as (_ & Hcreate & _).
  exact Hcreate.
Defined.

(** ** An update that changes nothing *)

Lemma assoc_distinct {V} (d : list (string * V)) k v :
  distinct (map fst d) = true -> In (k, v) d -> assoc k d = Some v.
Proof.
  induction d as [|[k' v'] d IH]; simpl; [contradiction|].
  intros Hd Hin. apply andb_prop in Hd. destruct Hd as [Hfresh Hd].
  destruct (String.eqb k k') eqn:Hk.
  - destruct Hin as [[= _ ->]|Hin]; [reflexivity|].
    apply String.eqb_eq in Hk. subst k'. exfalso.
    apply negb_true_iff in Hfresh.
    assert (Hex : existsb (String.eqb k) (map fst d) = true).
    { apply existsb_exists. exists k. split; [|apply String.eqb_refl].
      apply (in_map fst) in Hin. exact Hin. }
    congruence.
  - destruct Hin as [[= -> _]|Hin]; [|now apply IH].
    now rewrite String.eqb_refl in Hk.
Qed.

(** Equality of dictionaries, key by key. *)
Lemma py_eq_dict d e :
  py_eq (JDict d) (JDict e) =
  (List.length d =? List.length e)%nat &&
  forallb (fun kv =>
             match assoc (fst kv) e with
             | Some w => py_eq (snd kv) w
             | None => false
             end) d.
Proof.
  cbn [py_eq]. f_equal.
  induction d as [|[k v] d IH]; [reflexivity|].
  cbn [forallb fst snd]. destruct (assoc k e); [|reflexivity].
  now rewrite IH.
Qed.

(** A well-formed document equals itself. *)
Lemma py_eq_refl x : wf_json x = true -> py_eq x x = true.
Proof.
  induction x as [|b|n|s|l IH|d IH] using json_induction; intros Hwf.
  - reflexivity.
  - apply Bool.eqb_reflx.
  - apply Z.eqb_refl.
  - apply String.eqb_refl.
  - cbn [wf_json] in Hwf. induction l as [|a l IHl]; [reflexivity|].
    cbn [forallb] in Hwf. apply andb_prop in Hwf. destruct Hwf as [Ha Hl].
    inversion IH as [|? ? Pa Pl]; subst.
    change (py_eq a a && py_eq (JList l) (JList l) = true).
    now rewrite (Pa Ha), (IHl Pl Hl).
  - cbn [wf_json] in Hwf. apply andb_prop in Hwf. destruct Hwf as [Hd Hv].
    rewrite py_eq_dict, Nat.eqb_refl. cbn [andb].
    apply forallb_forall. intros [k v] Hin. cbn [fst snd].
    rewrite (assoc_distinct d k v Hd Hin).
    rewrite Forall_forall in IH. rewrite forallb_forall in Hv.
    exact (IH _ Hin (Hv _ Hin)).
Qed.

Section Unchanged.

Variable net : transport.

(** X15. When the agent answers the update with a body that carries
    Description and Local, as the merged view does, and holds under each
    of the six compared fields the very value of the merged view, the
    outcome is [changed = false]. *)
Theorem unchanged_fields_are_not_a_change
  view cfg tr accessor body resp d :
  dict_getitem view "AccessorID" = Ok accessor ->
  update_token_data cfg = Ok body ->
  net tr (update_request accessor body cfg) = Replied resp ->
  accepted resp ->
  decoded resp = Some (JDict d) ->
  dict_get view (JStr "Description") <> None ->
  dict_get view (JStr "Local") <> None ->
  assoc "Description" d <> None ->
  assoc "Local" d <> None ->
  (forall f, In f compared_fields ->
     dict_get_default view f = field_or_null (JDict d) f /\
     wf_json (field_or_null (JDict d) f) = true) ->
  update_token net view cfg tr =
    (Ok (mkOutput false UPDATE_OPERATION (Some (JDict d))),
     (tr ++ [update_request accessor body cfg])%list).
Proof.
  intros Ha Hbody Hnet Hacc Hdec Vd Vl Dd Dl Hsame.
  assert (Hne : forall f, In f compared_fields ->
            py_ne (dict_get_default view f) (field_or_null (JDict d) f)
            = false).
  { intros f Hf. destruct (Hsame f Hf) as [-> Hwf].
    unfold py_ne. now rewrite (py_eq_refl _ Hwf). }
  rewrite update_token_eq, Ha, Hbody, Hnet, (exchange_accepted _ _ Hacc Hdec).
  cbn [rbind]. f_equal.
  assert (Hc : token_changed view (JDict d) = Ok false).
  { unfold token_changed, dict_getitem. cbn [subscript].
    pose proof (Hne "Description" ltac:(simpl; tauto)) as H1.
    pose proof (Hne "Local" ltac:(simpl; tauto)) as H2.
    pose proof (Hne "Policies" ltac:(simpl; tauto)) as H3.
    pose proof (Hne "Roles" ltac:(simpl; tauto)) as H4.
    pose proof (Hne "ServiceIdentities" ltac:(simpl; tauto)) as H5.
    pose proof (Hne "NodeIdentities" ltac:(simpl; tauto)) as H6.
    unfold dict_get_default, field_or_null in H1, H2.
    destruct (dict_get view (JStr "Description")) as [d1|]; [|congruence].
    destruct (assoc "Description" d) as [d2|]; [|congruence].
    destruct (dict_get view (JStr "Local")) as [l1|]; [|congruence].
    destruct (assoc "Local" d) as [l2|]; [|congruence].
    cbn [rbind]. rewrite H1, H2. rewrite !json_get_dict. cbn [rbind].
    now rewrite H3, H4, H5, H6. }
  now rewrite Hc.
Qed.

End Unchanged.

Lemma unchanged_fields_are_not_a_change_witness :
  let view :=
    [(JStr "AccessorID", JStr "ID-1"); (JStr "Description", JStr "");
     (JStr "Local", JBool false);
     (JStr "Policies", JList [JDict [("ID", JStr "7"); ("Name", JStr "p1")]]);
     (JStr "ModifyIndex", JInt 4)] in
  let d :=
    [("AccessorID", JStr "ID-1"); ("Description", JStr "");
     ("Local", JBool false);
     ("Policies", JList [JDict [("ID", JStr "7"); ("Name", JStr "p1")]]);
     ("ModifyIndex", JInt 9)] in
  fst (update_token (scripted [ok_json (JDict d)]) view
         (sample_configuration "1.4.9") [])
  = Ok (mkOutput false UPDATE_OPERATION (Some (JDict d))).
Proof.
  intros view d.
  rewrite (unchanged_fields_are_not_a_change
             (scripted [ok_json (JDict d)]) view
             (sample_configuration "1.4.9") [] (JStr "ID-1") _
             (mkResponse 200 "" (Some (JDict d))) d
             eq_refl eq_refl eq_refl ltac:(accepted_status) eq_refl
             ltac:(discriminate) ltac:(discriminate)
             ltac:(discriminate) ltac:(discriminate)).
  - reflexivity.
  - intros f Hf. simpl in Hf.
    repeat (destruct Hf as [<-|Hf]; [split; reflexivity|]). contradiction.
Defined.
